(** * Service-desk intake engine (project2_service_desk.py)

    A shallow embedding of the decision logic of [ServiceDeskAutomation] and
    of the [create_ticket] route: the keyword priority classifier, the
    knowledge-base resolver with its cache, the AI fallback, the assignment
    balancer, the resolution-time estimator and the intake pipeline that
    strings them together.

    Modelling conventions.
    - A Python [str] is a [string] of 8-bit characters; the embedding is exact
      for ASCII text, where [str.lower] only moves 'A'..'Z' to 'a'..'z'.
    - The redis store is a [gmap string string]; the scikit-learn classifier,
      the chat-completion endpoint, the clock and the id generator are
      parameters of the pipeline.
    - Calls with an effect are recorded in a log carried by the state. *)

From Stdlib Require Import Ascii QArith.
From stdpp Require Import base strings list gmap.

Open Scope stdpp_scope.
Open Scope nat_scope.

(** ** Python string operations used by the code *)

Module PyStr.

(** One character of [str.lower()]. *)
Definition lower_char (c : ascii) : ascii :=
  let n := nat_of_ascii c in
  if (65 <=? n) && (n <=? 90) then ascii_of_nat (n + 32) else c.

(** [s.lower()] *)
Fixpoint lower (s : string) : string :=
  match s with
  | EmptyString => EmptyString
  | String c s' => String (lower_char c) (lower s')
  end.

(** [s.startswith(p)] *)
Fixpoint startswith (p s : string) : bool :=
  match p, s with
  | EmptyString, _ => true
  | String _ _, EmptyString => false
  | String a p', String b s' => bool_decide (a = b) && startswith p' s'
  end.

(** [sub in s] on strings: the substring test. *)
Fixpoint contains (sub s : string) : bool :=
  startswith sub s ||
  match s with
  | EmptyString => false
  | String _ s' => contains sub s'
  end.

(** [s[:n]] *)
Fixpoint take (n : nat) (s : string) : string :=
  match n, s with
  | S n', String c s' => String c (take n' s')
  | _, _ => EmptyString
  end.

(** Truthiness of a string: [bool(s)]. *)
Definition truthy (s : string) : bool :=
  match s with EmptyString => false | String _ _ => true end.

(** The mathematical reading of "sub occurs in s". *)
Definition Occurs (sub s : string) : Prop :=
  ∃ pre post, s = pre +:+ sub +:+ post.

(** [any(w in text for w in words)] *)
Definition any_in (words : list string) (text : string) : bool :=
  existsb (λ w, contains w text) words.

End PyStr.

Import PyStr.

(** ** Enumerations *)

Inductive Priority := LOW | MEDIUM | HIGH | CRITICAL.
Inductive Status := NEW | IN_PROGRESS | RESOLVED | CLOSED | ESCALATED.
Inductive Category := HARDWARE | SOFTWARE | NETWORK | ACCESS | EMAIL | OTHER.

#[global] Instance Priority_eq_dec : EqDecision Priority.
Proof. solve_decision. Defined.
#[global] Instance Status_eq_dec : EqDecision Status.
Proof. solve_decision. Defined.
#[global] Instance Category_eq_dec : EqDecision Category.
Proof. solve_decision. Defined.

(** The string value of each member ([class Category(str, Enum)]). *)
Definition category_value (c : Category) : string :=
  match c with
  | HARDWARE => "HARDWARE" | SOFTWARE => "SOFTWARE" | NETWORK => "NETWORK"
  | ACCESS => "ACCESS" | EMAIL => "EMAIL" | OTHER => "OTHER"
  end.

(** [x in xs] on a Python list of enum members. *)
Definition member {A} `{EqDecision A} (x : A) (xs : list A) : bool :=
  existsb (λ y, bool_decide (x = y)) xs.

(** ** Priority classifier: [_determine_priority] *)

Definition critical_keywords : list string :=
  ["urgent"; "critical"; "emergency"; "down"; "crashed"; "broken"; "asap"].
Definition high_keywords : list string :=
  ["important"; "quickly"; "soon"; "cannot work"; "blocked"].
Definition medium_keywords : list string :=
  ["issue"; "problem"; "error"; "help"].

Definition _determine_priority (text : string) : Priority :=
  let text_lower := lower text in
  if any_in critical_keywords text_lower then CRITICAL
  else if any_in high_keywords text_lower then HIGH
  else if any_in medium_keywords text_lower then MEDIUM
  else LOW.

(** ** World: the redis store and the log of effectful calls *)

Inductive Event :=
  | EvCacheGet (key : string)
  | EvCacheSetex (key : string) (ttl : nat) (value : string)
  | EvAiCall (prompt : string)
  | EvPrint.

Record World := mkWorld {
  redis : gmap string string;
  log : list Event
}.

Inductive Exn := ClassifierRaised | ValueError | IndexError.

Inductive result (A : Type) :=
  | Ok (a : A)
  | Raise (e : Exn).
Arguments Ok {A} a.
Arguments Raise {A} e.

(** State and exception monad of the service: a raised exception keeps the
    effects performed before it. *)
Definition M (A : Type) : Type := World → World * result A.

#[global] Instance M_ret : MRet M := λ A a w, (w, Ok a).
#[global] Instance M_bind : MBind M := λ A B f m w,
  match m w with
  | (w', Ok a) => f a w'
  | (w', Raise e) => (w', Raise e)
  end.

Definition raise {A} (e : Exn) : M A := λ w, (w, Raise e).

Definition emit (ev : Event) : M unit :=
  λ w, (mkWorld (redis w) (log w ++ [ev]), Ok ()).

(** [self.redis_client.get(key)] *)
Definition redis_get (key : string) : M (option string) :=
  λ w, (mkWorld (redis w) (log w ++ [EvCacheGet key]), Ok (redis w !! key)).

(** [self.redis_client.setex(key, ttl, value)] *)
Definition redis_setex (key : string) (ttl : nat) (value : string) : M unit :=
  λ w, (mkWorld (<[key := value]> (redis w))
                (log w ++ [EvCacheSetex key ttl value]), Ok ()).

(** The capabilities held by [self] and the ambient clock and id source.
    [classifier] stands for the vectorizer and the naive-Bayes model
    ([None]: the call raised); [acreate] for the chat-completion call
    followed by [.choices[0].message.content] ([None]: anything in that
    expression raised). *)
Record ServiceDeskAutomation := mkEngine {
  classifier : string → option (Category * Q);
  acreate : string → option string;
  clock_hour : nat;
  randint : nat
}.

(** The [new_ticket] dictionary; an absent key is [None]. *)
Record TicketDict := mkTicket {
  t_id : nat;
  t_title : string;
  t_description : string;
  t_category : Category;
  t_priority : Priority;
  t_status : Status;
  t_user_email : string;
  t_resolution : option string;
  t_auto_resolved : option nat;
  t_assignee : option string
}.

(** ** Knowledge base *)

Record KbEntry := mkKb {
  kb_keywords : list string;
  kb_resolution : string
}.

Definition PASSWORD_RESET_resolution : string := "
                Your password has been reset. Please follow these steps:
                1. Check your email for the password reset link
                2. Click the link and create a new password
                3. Use at least 8 characters with a mix of letters, numbers, and symbols
                4. Try logging in with your new password
                
                If you don't receive the email within 5 minutes, check your spam folder.
                ".

Definition WIFI_CONNECTION_resolution : string := "
                To resolve WiFi connection issues:
                1. Restart your device
                2. Forget the network and reconnect
                3. Ensure you're using the correct password
                4. Check if other devices can connect
                5. Move closer to the access point
                
                Network: CompanyWiFi
                Password: [Check with IT if needed]
                ".

Definition SOFTWARE_CRASH_resolution : string := "
                To resolve application crashes:
                1. Close the application completely
                2. Restart your computer
                3. Check for software updates
                4. Clear application cache if possible
                5. Reinstall if the issue persists
                
                If this doesn't resolve the issue, we'll need to investigate further.
                ".

Definition kb_PASSWORD_RESET : KbEntry :=
  mkKb ["password"; "reset"; "forgot"; "locked"] PASSWORD_RESET_resolution.
Definition kb_WIFI_CONNECTION : KbEntry :=
  mkKb ["wifi"; "wireless"; "connect"; "network"] WIFI_CONNECTION_resolution.
Definition kb_SOFTWARE_CRASH : KbEntry :=
  mkKb ["crash"; "error"; "stopped working"; "not responding"]
       SOFTWARE_CRASH_resolution.

(** The [knowledge_base] literal, in insertion order. *)
Definition knowledge_base : list (string * KbEntry) :=
  [ ("PASSWORD_RESET", kb_PASSWORD_RESET);
    ("WIFI_CONNECTION", kb_WIFI_CONNECTION);
    ("SOFTWARE_CRASH", kb_SOFTWARE_CRASH) ].

(** The [for issue_type, kb_entry in knowledge_base.items()] loop of
    [auto_resolve_ticket]; [None] when the loop falls through. *)
Fixpoint kb_loop (kb : list (string * KbEntry)) (cache_key ticket_text : string)
  : M (option string) :=
  match kb with
  | [] => mret None
  | (issue_type, kb_entry) :: rest =>
      if any_in (kb_keywords kb_entry) ticket_text then
        let resolution := kb_resolution kb_entry in
        _ ← redis_setex cache_key 3600 resolution;
        mret (Some resolution)
      else kb_loop rest cache_key ticket_text
  end.

(** ** AI fallback: [_generate_ai_resolution] *)

Definition decline_phrases : list string :=
  ["contact it"; "admin required"; "none"].

Definition ai_prompt (ticket : TicketDict) : string :=
  "
        As an IT support specialist, provide a step-by-step resolution for this ticket:
        
        Category: " +:+ category_value (t_category ticket) +:+ "
        Title: " +:+ t_title ticket +:+ "
        Description: " +:+ t_description ticket +:+ "
        
        Provide a clear, concise resolution that the user can follow.
        If this requires physical intervention or admin access, return None.
        ".

Definition _generate_ai_resolution (self : ServiceDeskAutomation)
    (ticket : TicketDict) : M (option string) :=
  let prompt := ai_prompt ticket in
  _ ← emit (EvAiCall prompt);
  match acreate self prompt with
  | Some resolution =>
      if any_in decline_phrases (lower resolution) then mret None
      else mret (Some resolution)
  | None => _ ← emit EvPrint; mret None
  end.

(** ** [auto_resolve_ticket] *)

Definition cache_key_of (ticket : TicketDict) : string :=
  "resolution:" +:+ category_value (t_category ticket) +:+ ":" +:+
  take 50 (t_title ticket).

Definition auto_resolve_ticket (self : ServiceDeskAutomation)
    (ticket : TicketDict) : M (option string) :=
  let cache_key := cache_key_of ticket in
  cached_resolution ← redis_get cache_key;
  match cached_resolution with
  | Some (String c s) => mret (Some (String c s))
  | _ =>
      let ticket_text :=
        lower (t_title ticket +:+ " " +:+ t_description ticket) in
      hit ← kb_loop knowledge_base cache_key ticket_text;
      match hit with
      | Some resolution => mret (Some resolution)
      | None =>
          if member (t_priority ticket) [LOW; MEDIUM] then
            resolution ← _generate_ai_resolution self ticket;
            match resolution with
            | Some (String c s) =>
                _ ← redis_setex cache_key 3600 (String c s);
                mret (Some (String c s))
            | _ => mret None
            end
          else mret None
      end
  end.

(** ** Assignment balancer: [assign_ticket] *)

Record Handler := mkHandler {
  categories : list Category;
  max_tickets : nat;
  current_load : nat
}.

(** The [team_skills] literal, in insertion order. *)
Definition team_skills : list (string * Handler) :=
  [ ("john.doe@company.com", mkHandler [HARDWARE; NETWORK] 10 5);
    ("jane.smith@company.com", mkHandler [SOFTWARE; EMAIL] 12 3);
    ("bob.wilson@company.com", mkHandler [ACCESS; NETWORK] 8 7) ].

(** [info['current_load'] / info['max_tickets']]: true division of two
    integers, kept as an exact rational. Only evaluated under the guard
    [current_load < max_tickets], so the denominator is positive. *)
Definition workload_ratio (info : Handler) : Q :=
  Qmake (Z.of_nat (current_load info)) (Pos.of_nat (max_tickets info)).

Definition eligible (category : Category) (info : Handler) : bool :=
  member category (categories info) && (current_load info <? max_tickets info).

(** The loop filling [suitable_assignees]. *)
Fixpoint suitable_loop (items : list (string * Handler)) (category : Category)
  : list (string * Q) :=
  match items with
  | [] => []
  | (email, info) :: rest =>
      if eligible category info
      then (email, workload_ratio info) :: suitable_loop rest category
      else suitable_loop rest category
  end.

(** [list.sort(key=...)] is a stable sort; stable insertion sort computes the
    same list. *)
Fixpoint insert_sorted {A} (key : A → Q) (x : A) (l : list A) : list A :=
  match l with
  | [] => [x]
  | y :: l' =>
      if Qle_bool (key x) (key y) then x :: y :: l'
      else y :: insert_sorted key x l'
  end.

Fixpoint py_sort {A} (key : A → Q) (l : list A) : list A :=
  match l with
  | [] => []
  | x :: l' => insert_sorted key x (py_sort key l')
  end.

(** [min(iterable, key=...)]: the first element with the smallest key;
    [ValueError] on an empty iterable. *)
Definition py_min {A} (key : A → nat) (l : list A) : result A :=
  match l with
  | [] => Raise ValueError
  | x :: l' =>
      Ok (fold_left (λ best y, if key y <? key best then y else best) l' x)
  end.

(** [assign_ticket] with the roster it iterates over made a parameter. *)
Definition assign_ticket_in (team_skills : list (string * Handler))
    (ticket : TicketDict) : result string :=
  let category := t_category ticket in
  let suitable_assignees := suitable_loop team_skills category in
  match suitable_assignees with
  | [] =>
      match py_min (λ x, current_load x.2) team_skills with
      | Ok x => Ok x.1
      | Raise e => Raise e
      end
  | _ :: _ =>
      match py_sort (λ x, x.2) suitable_assignees with
      | x :: _ => Ok x.1
      | [] => Raise IndexError
      end
  end.

Definition assign_ticket (self : ServiceDeskAutomation) (ticket : TicketDict)
  : result string :=
  assign_ticket_in team_skills ticket.

(** ** Resolution-time estimator: [predict_resolution_time] *)

Definition base_times : list ((Category * Priority) * nat) :=
  [ ((HARDWARE, CRITICAL), 120); ((HARDWARE, HIGH), 180);
    ((HARDWARE, MEDIUM), 240); ((HARDWARE, LOW), 480);
    ((SOFTWARE, CRITICAL), 60); ((SOFTWARE, HIGH), 120);
    ((SOFTWARE, MEDIUM), 180); ((SOFTWARE, LOW), 360);
    ((NETWORK, CRITICAL), 90); ((NETWORK, HIGH), 150);
    ((NETWORK, MEDIUM), 240); ((NETWORK, LOW), 480);
    ((ACCESS, CRITICAL), 30); ((ACCESS, HIGH), 45);
    ((ACCESS, MEDIUM), 60); ((ACCESS, LOW), 120);
    ((EMAIL, CRITICAL), 45); ((EMAIL, HIGH), 90);
    ((EMAIL, MEDIUM), 120); ((EMAIL, LOW), 240) ].

(** [d.get(k, default)] *)
Fixpoint dict_get {K V} `{EqDecision K} (d : list (K * V)) (k : K) (default : V)
  : V :=
  match d with
  | [] => default
  | (k', v) :: rest => if bool_decide (k = k') then v else dict_get rest k default
  end.

(** [int(x)]: truncation toward zero. *)
Definition py_int (x : Q) : Z := Z.quot (Qnum x) (Zpos (Qden x)).

(** The multipliers 1.5 and 0.8 are kept as the rationals 3/2 and 4/5. The
    double 1.5 is exact; the double nearest 0.8 exceeds 4/5 by a relative
    2^-54, which is below half an ulp of any product, so for the integer base
    times in range [int(base_time * 0.8)] is the truncation of
    [4 * base_time / 5]. *)
Definition predict_resolution_time (self : ServiceDeskAutomation)
    (ticket : TicketDict) : Z :=
  let key := (t_category ticket, t_priority ticket) in
  let base_time := dict_get base_times key 180 in
  let current_hour := clock_hour self in
  let multiplier :=
    if (9 <=? current_hour) && (current_hour <=? 17) then Qmake 3 2
    else Qmake 4 5 in
  py_int (Qmult (inject_Z (Z.of_nat base_time)) multiplier).

(** ** [classify_ticket] *)

Record Classification := mkClassification {
  c_category : Category;
  c_priority : Priority;
  c_confidence : Q
}.

Definition classify_ticket (self : ServiceDeskAutomation)
    (title description : string) : M Classification :=
  let combined_text := title +:+ " " +:+ description in
  match classifier self combined_text with
  | None => raise ClassifierRaised
  | Some (category, confidence) =>
      let priority := _determine_priority combined_text in
      mret (mkClassification category priority confidence)
  end.

(** ** The intake route: [create_ticket] *)

Record TicketCreate := mkTicketCreate {
  title : string;
  description : string;
  user_email : string
}.

Record TicketResponse := mkResponse {
  r_id : nat;
  r_title : string;
  r_category : Category;
  r_priority : Priority;
  r_status : Status;
  r_assignee : option string;
  r_resolution : option string;
  r_estimated_resolution_time : Z
}.

(** The three stores of the branch taken when [resolution] is truthy. *)
Definition store_resolved (t : TicketDict) (resolution : string) : TicketDict :=
  mkTicket (t_id t) (t_title t) (t_description t) (t_category t)
           (t_priority t) RESOLVED (t_user_email t)
           (Some resolution) (Some 1) (t_assignee t).

(** The two stores of the branch taken when [resolution] is falsy. *)
Definition store_assigned (t : TicketDict) (assignee : string) : TicketDict :=
  mkTicket (t_id t) (t_title t) (t_description t) (t_category t)
           (t_priority t) IN_PROGRESS (t_user_email t)
           (t_resolution t) (t_auto_resolved t) (Some assignee).

(** [bool(resolution)] for an [Optional[str]]. *)
Definition truthy_opt (o : option string) : bool :=
  match o with Some s => truthy s | None => false end.

Definition lift_result {A} (r : result A) : M A := λ w, (w, r).

(** The route returns the response; the final [new_ticket] dictionary is
    returned with it so that its [auto_resolved] key can be observed. *)
Definition create_ticket (automation : ServiceDeskAutomation)
    (ticket : TicketCreate) : M (TicketDict * TicketResponse) :=
  classification ← classify_ticket automation (title ticket) (description ticket);
  let new_ticket :=
    mkTicket (randint automation) (title ticket) (description ticket)
             (c_category classification) (c_priority classification)
             NEW (user_email ticket) None None None in
  '(resolution, new_ticket) ←
    (if member (c_priority classification) [LOW; MEDIUM] then
       resolution ← auto_resolve_ticket automation new_ticket;
       match resolution with
       | Some (String c s) =>
           mret (resolution, store_resolved new_ticket (String c s))
       | _ => mret (resolution, new_ticket)
       end
     else mret (None, new_ticket));
  new_ticket ←
    (if negb (truthy_opt resolution) then
       assignee ← lift_result (assign_ticket automation new_ticket);
       mret (store_assigned new_ticket assignee)
     else mret new_ticket);
  let estimated_time := predict_resolution_time automation new_ticket in
  mret (new_ticket,
        mkResponse (t_id new_ticket) (t_title new_ticket)
                   (t_category new_ticket) (t_priority new_ticket)
                   (t_status new_ticket) (t_assignee new_ticket)
                   (t_resolution new_ticket) estimated_time).

(** ** Observations on runs *)

Definition is_ai_call (ev : Event) : bool :=
  match ev with EvAiCall _ => true | _ => false end.

(** [w'] extends the log of [w] by events none of which is a call of the
    chat-completion capability. *)
Definition no_ai_since (w w' : World) : Prop :=
  ∃ evs, log w' = log w ++ evs ∧ Forall (λ ev, is_ai_call ev = false) evs.

(** A computation that never calls the capability, from any state. *)
Definition quiet {A} (m : M A) : Prop := ∀ w, no_ai_since w (m w).1.

(** A computation that never raises. *)
Definition returns {A} (m : M A) : Prop := ∀ w, ∃ a, (m w).2 = Ok a.

(** Some keyword of the entry occurs in the text. *)
Definition kb_hit (e : KbEntry) (text : string) : Prop :=
  ∃ kw, kw ∈ kb_keywords e ∧ Occurs kw text.

Definition empty_world : World := mkWorld ∅ [].

(** A ticket dictionary as [create_ticket] builds it before resolution. *)
Definition fresh_ticket (id : nat) (title description : string)
    (category : Category) (priority : Priority) : TicketDict :=
  mkTicket id title description category priority NEW "user@company.com"
           None None None.

(** An engine whose classifier always answers [c] and whose chat completion
    always answers [reply], at local hour [hour]. *)
Definition fixed_engine (c : Category) (reply : option string) (hour : nat)
  : ServiceDeskAutomation :=
  mkEngine (λ _, Some (c, 1%Q)) (λ _, reply) hour 1234.

(** An engine whose classifier raises on every text. *)
Definition failing_engine (hour : nat) : ServiceDeskAutomation :=
  mkEngine (λ _, None) (λ _, None) hour 1234.

Definition outage_ticket : TicketCreate :=
  mkTicketCreate "System completely down, URGENT"
                 "production outage, password portal unreachable"
                 "ops@company.com".

Definition toner_ticket : TicketCreate :=
  mkTicketCreate "Printer toner" "the toner is nearly empty" "ann@company.com".

(** [combined_text] of [classify_ticket]. *)
Definition combined_text (ticket : TicketCreate) : string :=
  title ticket +:+ " " +:+ description ticket.

(** What the intake leaves in the ticket dictionary. *)
Definition intake_invariant (t : TicketDict) : Prop :=
  (t_resolution t = None ∨ t_assignee t = None) ∧
  (t_status t = RESOLVED ∨ t_status t = IN_PROGRESS) ∧
  (t_status t = RESOLVED ↔ is_Some (t_resolution t)) ∧
  (t_status t = IN_PROGRESS ↔ is_Some (t_assignee t)) ∧
  (is_Some (t_auto_resolved t) →
     ∃ r, t_resolution t = Some r ∧ r ≠ "").

(** The response is the view of the dictionary. *)
Definition response_of (t : TicketDict) (resp : TicketResponse) : Prop :=
  r_status resp = t_status t ∧ r_assignee resp = t_assignee t ∧
  r_resolution resp = t_resolution t ∧ r_category resp = t_category t ∧
  r_priority resp = t_priority t.

(** The sentence of the specification on urgent tickets (4.8 step 4): a HIGH
    or CRITICAL ticket whose text hits a knowledge-base entry leaves the
    intake auto-resolved and without an assignee. *)
Definition urgent_kb_match_is_auto_resolved
    (automation : ServiceDeskAutomation) (ticket : TicketCreate) (w : World)
  : Prop :=
  ∀ w' t resp,
    create_ticket automation ticket w = (w', Ok (t, resp)) →
    t_priority t = HIGH ∨ t_priority t = CRITICAL →
    (∃ e, e ∈ knowledge_base ∧ kb_hit e.2 (lower (combined_text ticket))) →
    t_status t = RESOLVED ∧ is_Some (t_resolution t) ∧ t_assignee t = None.

(** The sentence of the specification on classifier failure (4.8 step 1):
    the intake goes on with category OTHER and returns a ticket. *)
Definition classifier_failure_defaults_to_OTHER
    (automation : ServiceDeskAutomation) (ticket : TicketCreate) (w : World)
  : Prop :=
  classifier automation (combined_text ticket) = None →
  ∃ w' t resp,
    create_ticket automation ticket w = (w', Ok (t, resp)) ∧
    t_category t = OTHER.

(** The estimate as the specification words it (4.7): the table entry, or
    180, times 1.5 when the hour is in the half-open interval [9,17) and
    times 0.8 otherwise, truncated. *)
Definition estimate_spec (category : Category) (priority : Priority)
    (hour : nat) : Z :=
  let base := Z.of_nat (dict_get base_times (category, priority) 180) in
  if (9 <=? hour) && (hour <? 17)
  then py_int (Qmult (inject_Z base) (Qmake 3 2))
  else py_int (Qmult (inject_Z base) (Qmake 4 5)).

(** The sentence of the specification on the balancer (4.6): among the
    handlers that cover the category below their maximum, the answer has the
    lowest ratio, and among those of equal ratio the least identifier. *)
Definition lowest_ratio_then_least_identifier
    (roster : list (string * Handler)) (ticket : TicketDict) : Prop :=
  (∃ e i, (e, i) ∈ roster ∧ eligible (t_category ticket) i = true) →
  ∃ email info,
    (email, info) ∈ roster ∧ eligible (t_category ticket) info = true ∧
    assign_ticket_in roster ticket = Ok email ∧
    ∀ e' i', (e', i') ∈ roster → eligible (t_category ticket) i' = true →
      Qle (workload_ratio info) (workload_ratio i') ∧
      (Qeq (workload_ratio i') (workload_ratio info) → String.le email e').

(** Two handlers of equal ratio, listed against the order of their
    identifiers. *)
Definition tied_roster : list (string * Handler) :=
  [ ("zoe.young@company.com", mkHandler [NETWORK] 10 5);
    ("amy.adams@company.com", mkHandler [NETWORK] 10 5) ].

(** Every skilled handler at its maximum, one idle handler without the
    skill. *)
Definition exhausted_roster : list (string * Handler) :=
  [ ("john.doe@company.com", mkHandler [HARDWARE; NETWORK] 10 10);
    ("jane.smith@company.com", mkHandler [SOFTWARE; EMAIL] 12 2);
    ("bob.wilson@company.com", mkHandler [ACCESS; NETWORK] 8 8) ].

(** ** Further observations on the engine *)

(** The order LOW < MEDIUM < HIGH < CRITICAL. *)
Definition priority_rank (p : Priority) : nat :=
  match p with LOW => 0 | MEDIUM => 1 | HIGH => 2 | CRITICAL => 3 end.

(** [ticket_text] of [auto_resolve_ticket]. *)
Definition ticket_text (t : TicketDict) : string :=
  lower (t_title t +:+ " " +:+ t_description t).

(** The first knowledge-base entry, in the order of the literal, with a
    keyword occurring in the text. *)
Definition kb_first_hit (text : string) : option KbEntry :=
  snd <$> List.find (λ e, any_in (kb_keywords e.2) text) knowledge_base.

(** The cached value the code accepts: present and truthy. *)
Definition cached_resolution (w : World) (key : string) : option string :=
  match redis w !! key with
  | Some (String c s) => Some (String c s)
  | _ => None
  end.

(** Number of chat-completion calls in a list of events. *)
Definition ai_calls (evs : list Event) : nat :=
  length (List.filter is_ai_call evs).

(** The [new_ticket] dictionary as [create_ticket] builds it, before the
    resolution and assignment steps. *)
Definition draft_ticket (automation : ServiceDeskAutomation)
    (ticket : TicketCreate) (category : Category) : TicketDict :=
  mkTicket (randint automation) (title ticket) (description ticket)
           category (_determine_priority (combined_text ticket))
           NEW (user_email ticket) None None None.

(** The value returned by the route for a final dictionary. *)
Definition respond (automation : ServiceDeskAutomation) (t : TicketDict)
  : TicketDict * TicketResponse :=
  (t, mkResponse (t_id t) (t_title t) (t_category t) (t_priority t)
                 (t_status t) (t_assignee t) (t_resolution t)
                 (predict_resolution_time automation t)).

(** The reply of the capability is one the code declines. *)
Definition declined (reply : string) : Prop :=
  ∃ p, p ∈ decline_phrases ∧ Occurs p (lower reply).

(** ** Facts about the string operations *)

Section string_facts.

Lemma append_cons (x : ascii) (a b : string) :
  String x a +:+ b = String x (a +:+ b).
Proof. reflexivity. Qed.

Lemma append_nil (b : string) : EmptyString +:+ b = b.
Proof. reflexivity. Qed.

Lemma append_assoc (a b c : string) : (a +:+ b) +:+ c = a +:+ b +:+ c.
Proof.
  induction a as [|x a IH]; [done |]. rewrite !append_cons. by f_equal.
Qed.

Lemma lower_append (a b : string) : lower (a +:+ b) = lower a +:+ lower b.
Proof.
  induction a as [|x a IH]; [done |].
  rewrite append_cons. simpl. rewrite append_cons. by f_equal.
Qed.

Lemma startswith_spec (p s : string) :
  startswith p s = true ↔ ∃ post, s = p +:+ post.
Proof.
  revert s. induction p as [|a p IH]; intros s; simpl.
  - split; [intros _; by exists s | done].
  - destruct s as [|b s].
    + split; [done | intros [post H]; discriminate H].
    + rewrite andb_true_iff, bool_decide_eq_true, IH. split.
      * intros [-> [post ->]]. by exists post.
      * intros [post H]. rewrite append_cons in H. injection H as -> ->.
        split; [done | by exists post].
Qed.

Lemma contains_spec (sub s : string) :
  contains sub s = true ↔ Occurs sub s.
Proof.
  unfold Occurs. induction s as [|b s IH].
  - simpl. rewrite orb_false_r, startswith_spec. split.
    + intros [post H]. by exists EmptyString, post.
    + intros [pre [post H]]. destruct pre; [by exists post | discriminate H].
  - cbn [contains]. rewrite orb_true_iff, startswith_spec, IH. split.
    + intros [[post H] | [pre [post H]]].
      * by exists EmptyString, post.
      * exists (String b pre), post. rewrite append_cons. by rewrite H.
    + intros [pre [post H]]. destruct pre as [|c pre].
      * left. by exists post.
      * right. rewrite append_cons in H. injection H as _ H.
        by exists pre, post.
Qed.

Lemma any_in_spec (words : list string) (text : string) :
  any_in words text = true ↔ ∃ w, w ∈ words ∧ Occurs w text.
Proof.
  unfold any_in. rewrite existsb_exists. split.
  - intros [w [Hin Hc]]. exists w. by rewrite list_elem_of_In, <- contains_spec.
  - intros [w [Hin Hc]]. exists w. by rewrite <- list_elem_of_In, contains_spec.
Qed.

Lemma any_in_false (words : list string) (text : string) :
  any_in words text = false ↔ ¬ ∃ w, w ∈ words ∧ Occurs w text.
Proof. rewrite <- any_in_spec. by destruct (any_in words text). Qed.

(** Matching is case-insensitive: an occurrence in any letter case of the
    raw text is an occurrence of the lower-cased word in the lower-cased
    text. *)
Lemma Occurs_lower (u text : string) :
  Occurs u text → Occurs (lower u) (lower text).
Proof.
  intros [pre [post ->]]. exists (lower pre), (lower post).
  by rewrite !lower_append.
Qed.

End string_facts.

(** Membership in a list given by its elements. *)
Ltac in_list :=
  repeat first [ by apply list_elem_of_here | apply list_elem_of_further ].

(** ** The priority classifier *)

(** C1. The classifier walks the CRITICAL, HIGH and MEDIUM keyword lists in
    that order over the lower-cased text and answers with the first tier that
    has a keyword occurring in it, LOW when none has; so a text with a
    CRITICAL keyword and any collection of MEDIUM keywords is CRITICAL. *)
Theorem C1_priority_precedence (text : string) :
  let hit kws := ∃ w, w ∈ kws ∧ Occurs w (lower text) in
  (hit critical_keywords → _determine_priority text = CRITICAL) ∧
  (¬ hit critical_keywords → hit high_keywords →
     _determine_priority text = HIGH) ∧
  (¬ hit critical_keywords → ¬ hit high_keywords → hit medium_keywords →
     _determine_priority text = MEDIUM) ∧
  (¬ hit critical_keywords → ¬ hit high_keywords → ¬ hit medium_keywords →
     _determine_priority text = LOW) ∧
  (∀ c ms, c ∈ critical_keywords → Occurs c (lower text) →
     Forall (λ m, m ∈ medium_keywords ∧ Occurs m (lower text)) ms →
     _determine_priority text = CRITICAL).
Proof.
  intros hit. unfold _determine_priority.
  assert (Hc : hit critical_keywords → any_in critical_keywords (lower text) = true)
    by (intros H; by apply any_in_spec).
  repeat split.
  - intros H. by rewrite (Hc H).
  - intros Hn Hh. apply any_in_false in Hn. apply any_in_spec in Hh.
    by rewrite Hn, Hh.
  - intros Hn Hn' Hm. apply any_in_false in Hn, Hn'. apply any_in_spec in Hm.
    by rewrite Hn, Hn', Hm.
  - intros Hn Hn' Hn''. apply any_in_false in Hn, Hn', Hn''.
    by rewrite Hn, Hn', Hn''.
  - intros c ms Hin Hocc _. rewrite Hc; [done | by exists c].
Qed.

Lemma C1_priority_precedence_witness :
  _determine_priority "Server is DOWN: an issue, a problem, an error, help" = CRITICAL.
Proof.
  apply (C1_priority_precedence
           "Server is DOWN: an issue, a problem, an error, help").
  exists "down". split.
  - unfold critical_keywords. in_list.
  - apply contains_spec. vm_compute. reflexivity.
Defined.

(** ** The knowledge-base resolver *)

Lemma kb_hit_spec (e : KbEntry) (text : string) :
  any_in (kb_keywords e) text = true ↔ kb_hit e text.
Proof. apply any_in_spec. Qed.

Lemma kb_hit_false (e : KbEntry) (text : string) :
  any_in (kb_keywords e) text = false ↔ ¬ kb_hit e text.
Proof. apply any_in_false. Qed.

Lemma knowledge_base_entries :
  knowledge_base =
  [ ("PASSWORD_RESET", kb_PASSWORD_RESET);
    ("WIFI_CONNECTION", kb_WIFI_CONNECTION);
    ("SOFTWARE_CRASH", kb_SOFTWARE_CRASH) ].
Proof. reflexivity. Qed.

(** The value computed by the loop is that of the first entry that hits. *)
Lemma kb_loop_value (kb : list (string * KbEntry)) (key text : string) (w : World) :
  (kb_loop kb key text w).2 =
  Ok (kb_resolution <$>
        (snd <$> List.find (λ e, any_in (kb_keywords e.2) text) kb)).
Proof.
  induction kb as [|[name e] kb IH]; [done |].
  cbn [kb_loop List.find snd]. destruct (any_in (kb_keywords e) text); [done |].
  apply IH.
Qed.

(** C9. The resolver scans PASSWORD_RESET, WIFI_CONNECTION, SOFTWARE_CRASH in
    that order over the lower-cased ticket text and returns the resolution of
    the first entry with a keyword occurring in it; a ticket whose text
    mentions, in any letter case, both "crash" and "password" gets the
    PASSWORD_RESET resolution, also through [auto_resolve_ticket] on a cache
    miss. *)
Theorem C9_knowledge_base_order (key text : string) (w : World) :
  let t := lower text in
  let answer := (kb_loop knowledge_base key t w).2 in
  (kb_hit kb_PASSWORD_RESET t → answer = Ok (Some PASSWORD_RESET_resolution)) ∧
  (¬ kb_hit kb_PASSWORD_RESET t → kb_hit kb_WIFI_CONNECTION t →
     answer = Ok (Some WIFI_CONNECTION_resolution)) ∧
  (¬ kb_hit kb_PASSWORD_RESET t → ¬ kb_hit kb_WIFI_CONNECTION t →
   kb_hit kb_SOFTWARE_CRASH t →
     answer = Ok (Some SOFTWARE_CRASH_resolution)) ∧
  (¬ kb_hit kb_PASSWORD_RESET t → ¬ kb_hit kb_WIFI_CONNECTION t →
   ¬ kb_hit kb_SOFTWARE_CRASH t → answer = Ok None) ∧
  (∀ u v, lower u = "password" → lower v = "crash" →
     Occurs u text → Occurs v text →
     answer = Ok (Some PASSWORD_RESET_resolution)) ∧
  (∀ self ticket u v,
     text = t_title ticket +:+ " " +:+ t_description ticket →
     redis w !! cache_key_of ticket = None →
     lower u = "password" → lower v = "crash" →
     Occurs u text → Occurs v text →
     (auto_resolve_ticket self ticket w).2 =
       Ok (Some PASSWORD_RESET_resolution)).
Proof.
  intros t answer.
  assert (Hpw : kb_hit kb_PASSWORD_RESET t →
                answer = Ok (Some PASSWORD_RESET_resolution)).
  { intros H. unfold answer. rewrite kb_loop_value, knowledge_base_entries.
    apply kb_hit_spec in H. cbn [List.find snd]. by rewrite H. }
  assert (Hmention : ∀ u, lower u = "password" → Occurs u text →
                          kb_hit kb_PASSWORD_RESET t).
  { intros u Hu Hocc. exists "password". split.
    - unfold kb_PASSWORD_RESET. cbn [kb_keywords]. in_list.
    - rewrite <- Hu. by apply Occurs_lower. }
  repeat split.
  - exact Hpw.
  - intros H1 H2. unfold answer.
    rewrite kb_loop_value, knowledge_base_entries.
    apply kb_hit_false in H1. apply kb_hit_spec in H2.
    cbn [List.find snd]. by rewrite H1, H2.
  - intros H1 H2 H3. unfold answer.
    rewrite kb_loop_value, knowledge_base_entries.
    apply kb_hit_false in H1, H2. apply kb_hit_spec in H3.
    cbn [List.find snd]. by rewrite H1, H2, H3.
  - intros H1 H2 H3. unfold answer.
    rewrite kb_loop_value, knowledge_base_entries.
    apply kb_hit_false in H1, H2, H3.
    cbn [List.find snd]. by rewrite H1, H2, H3.
  - intros u v Hu _ Hocc _. apply Hpw. by apply (Hmention u).
  - intros self ticket u v Htext Hmiss Hu _ Hocc _.
    unfold auto_resolve_ticket, mbind, M_bind, redis_get. cbn [redis].
    rewrite Hmiss, <- Htext.
    pose proof (kb_loop_value knowledge_base (cache_key_of ticket) t
                  (mkWorld (redis w) (log w ++ [EvCacheGet (cache_key_of ticket)])))
      as Hv.
    fold t.
    destruct (kb_loop knowledge_base (cache_key_of ticket) t _) as [w1 r1].
    cbn [snd] in Hv. subst r1.
    rewrite knowledge_base_entries. cbn [List.find snd].
    assert (Hh : any_in (kb_keywords kb_PASSWORD_RESET) t = true)
      by (apply kb_hit_spec; by apply (Hmention u)).
    by rewrite Hh.
Qed.

Lemma C9_knowledge_base_order_witness :
  (kb_loop knowledge_base "resolution:SOFTWARE:App CRASH"
     (lower "App CRASH after Password change") empty_world).2 =
  Ok (Some PASSWORD_RESET_resolution).
Proof.
  destruct (C9_knowledge_base_order "resolution:SOFTWARE:App CRASH"
              "App CRASH after Password change" empty_world)
    as (_ & _ & _ & _ & H & _).
  apply (H "Password" "CRASH"); try reflexivity;
    apply contains_spec; vm_compute; reflexivity.
Defined.

(** ** The AI fallback *)

(** C10. Whatever text the capability returns, [_generate_ai_resolution]
    drops it when its lower-cased form contains "contact it", "admin required"
    or "none"; a reply that merely contains "nonessential" is therefore
    dropped too, while a reply with none of the three is returned as is. *)
Theorem C10_ai_decline_phrases (self : ServiceDeskAutomation)
    (ticket : TicketDict) (w : World) (reply : string) :
  acreate self (ai_prompt ticket) = Some reply →
  ((∃ p, p ∈ ["contact it"; "admin required"; "none"] ∧
         Occurs p (lower reply)) →
     (_generate_ai_resolution self ticket w).2 = Ok None) ∧
  (Occurs "nonessential" (lower reply) →
     (_generate_ai_resolution self ticket w).2 = Ok None) ∧
  (¬ (∃ p, p ∈ ["contact it"; "admin required"; "none"] ∧
           Occurs p (lower reply)) →
     (_generate_ai_resolution self ticket w).2 = Ok (Some reply)).
Proof.
  intros Hreply.
  unfold _generate_ai_resolution, mbind, M_bind, emit. rewrite Hreply.
  assert (Hdrop : (∃ p, p ∈ decline_phrases ∧ Occurs p (lower reply)) →
                  any_in decline_phrases (lower reply) = true)
    by (intros H; by apply any_in_spec).
  repeat split.
  - intros H. by rewrite (Hdrop H).
  - intros [pre [post H]]. rewrite Hdrop; [done |].
    exists "none". split; [unfold decline_phrases; in_list |].
    exists pre, ("ssential" +:+ post). rewrite H.
    change "nonessential" with ("none" +:+ "ssential").
    by rewrite !append_assoc.
  - intros H. apply any_in_false in H. fold decline_phrases in H.
    by rewrite H.
Qed.

Lemma C10_ai_decline_phrases_witness :
  (_generate_ai_resolution
     (mkEngine (λ _, Some (HARDWARE, 1%Q))
               (λ _, Some "Remove the Nonessential startup items, then reboot.")
               10 1234)
     (fresh_ticket 1234 "Laptop boots slowly" "takes ten minutes to start"
                   HARDWARE LOW)
     empty_world).2 = Ok None.
Proof.
  eapply (C10_ai_decline_phrases _ _ _
            "Remove the Nonessential startup items, then reboot.").
  - reflexivity.
  - apply contains_spec. vm_compute. reflexivity.
Defined.

(** ** Which runs call the chat-completion capability *)

Section no_ai.

Lemma no_ai_refl (w : World) : no_ai_since w w.
Proof. exists []. by rewrite app_nil_r. Qed.

Lemma no_ai_trans (w1 w2 w3 : World) :
  no_ai_since w1 w2 → no_ai_since w2 w3 → no_ai_since w1 w3.
Proof.
  intros [e1 [H1 F1]] [e2 [H2 F2]]. exists (e1 ++ e2). split.
  - by rewrite H2, H1, app_assoc.
  - by apply Forall_app.
Qed.

Lemma quiet_ret {A} (a : A) : quiet (mret a).
Proof. intros w. apply no_ai_refl. Qed.

Lemma quiet_bind {A B} (m : M A) (k : A → M B) :
  quiet m → (∀ a, quiet (k a)) → quiet (m ≫= k).
Proof.
  intros Hm Hk w. unfold mbind, M_bind. specialize (Hm w).
  destruct (m w) as [w1 [a|e]]; cbn [fst] in *; [| exact Hm].
  exact (no_ai_trans _ _ _ Hm (Hk a w1)).
Qed.

Lemma quiet_redis_get (key : string) : quiet (redis_get key).
Proof.
  intros w. exists [EvCacheGet key]. split; [done | by repeat constructor].
Qed.

Lemma quiet_redis_setex (key : string) (ttl : nat) (v : string) :
  quiet (redis_setex key ttl v).
Proof.
  intros w. exists [EvCacheSetex key ttl v].
  split; [done | by repeat constructor].
Qed.

Lemma quiet_kb_loop (kb : list (string * KbEntry)) (key text : string) :
  quiet (kb_loop kb key text).
Proof.
  induction kb as [|[name e] kb IH]; cbn [kb_loop].
  - apply quiet_ret.
  - destruct (any_in (kb_keywords e) text); [| exact IH].
    apply quiet_bind; [apply quiet_redis_setex | intros _; apply quiet_ret].
Qed.

(** The inner gate of [auto_resolve_ticket]: with a priority outside
    LOW and MEDIUM the run ends after the knowledge-base loop. *)
Lemma auto_resolve_urgent_quiet (self : ServiceDeskAutomation) (t : TicketDict) :
  t_priority t = HIGH ∨ t_priority t = CRITICAL →
  quiet (auto_resolve_ticket self t).
Proof.
  intros Hp. unfold auto_resolve_ticket.
  assert (Hm : member (t_priority t) [LOW; MEDIUM] = false)
    by (destruct Hp as [-> | ->]; reflexivity).
  assert (Hkb : quiet
    (hit ← kb_loop knowledge_base (cache_key_of t)
             (lower (t_title t +:+ " " +:+ t_description t));
     match hit with
     | Some resolution => mret (Some resolution)
     | None =>
         if member (t_priority t) [LOW; MEDIUM] then
           resolution ← _generate_ai_resolution self t;
           match resolution with
           | Some (String c s) =>
               _ ← redis_setex (cache_key_of t) 3600 (String c s);
               mret (Some (String c s))
           | _ => mret None
           end
         else mret None
     end)).
  { apply quiet_bind; [apply quiet_kb_loop |].
    intros [r|]; [apply quiet_ret |]. rewrite Hm. apply quiet_ret. }
  apply quiet_bind; [apply quiet_redis_get |].
  intros [[|c s]|]; [exact Hkb | apply quiet_ret | exact Hkb].
Qed.

End no_ai.

(** C3. During intake of a ticket whose priority is HIGH or CRITICAL no call
    of [_generate_ai_resolution] is made: the route's log gains no AI call,
    and [auto_resolve_ticket] itself makes none for such a ticket. *)
Theorem C3_no_ai_for_urgent :
  (∀ automation ticket w,
     let p := _determine_priority (title ticket +:+ " " +:+ description ticket) in
     p = HIGH ∨ p = CRITICAL →
     no_ai_since w (create_ticket automation ticket w).1) ∧
  (∀ self t w,
     t_priority t = HIGH ∨ t_priority t = CRITICAL →
     no_ai_since w (auto_resolve_ticket self t w).1).
Proof.
  split; [| intros self t w Hp; by apply auto_resolve_urgent_quiet].
  intros automation ticket w p Hp.
  unfold create_ticket, classify_ticket, mbind, M_bind.
  destruct (classifier automation _) as [[category confidence]|];
    [| apply no_ai_refl].
  cbn [mret M_ret c_priority]. fold p.
  assert (Hm : member p [LOW; MEDIUM] = false)
    by (destruct Hp as [-> | ->]; reflexivity).
  rewrite Hm. cbn [mret M_ret truthy_opt negb].
  unfold lift_result.
  destruct (assign_ticket automation _); apply no_ai_refl.
Qed.

Lemma C3_no_ai_for_urgent_witness :
  no_ai_since empty_world
    (create_ticket (fixed_engine NETWORK (Some "Reboot the router.") 10)
                   outage_ticket empty_world).1.
Proof.
  apply (proj1 C3_no_ai_for_urgent
           (fixed_engine NETWORK (Some "Reboot the router.") 10)
           outage_ticket empty_world).
  right. vm_compute. reflexivity.
Defined.

(** For contrast: a LOW ticket that misses the cache and the knowledge base
    does reach the capability. *)
Example low_ticket_calls_ai :
  _determine_priority (combined_text toner_ticket) = LOW ∧
  existsb is_ai_call
    (log (create_ticket (fixed_engine OTHER (Some "Replace the cartridge.") 10)
                        toner_ticket empty_world).1) = true.
Proof. split; vm_compute; reflexivity. Qed.

(** ** The intake pipeline *)

Section pipeline.

Lemma returns_ret {A} (a : A) : returns (mret a).
Proof. intros w. by exists a. Qed.

Lemma returns_bind {A B} (m : M A) (k : A → M B) :
  returns m → (∀ a, returns (k a)) → returns (m ≫= k).
Proof.
  intros Hm Hk w. unfold mbind, M_bind. destruct (Hm w) as [a Ha].
  destruct (m w) as [w1 r]. cbn [snd] in Ha. subst r. apply Hk.
Qed.

Lemma returns_redis_setex (key : string) (ttl : nat) (v : string) :
  returns (redis_setex key ttl v).
Proof. intros w. by eexists. Qed.

Lemma returns_kb_loop (kb : list (string * KbEntry)) (key text : string) :
  returns (kb_loop kb key text).
Proof. intros w. rewrite kb_loop_value. by eexists. Qed.

(** Whatever the capability does, the failure is caught. *)
Lemma returns_generate_ai (self : ServiceDeskAutomation) (t : TicketDict) :
  returns (_generate_ai_resolution self t).
Proof.
  unfold _generate_ai_resolution.
  apply returns_bind; [intros w; by eexists |]. intros _.
  destruct (acreate self _) as [r|].
  - destruct (any_in _ _); apply returns_ret.
  - apply returns_bind; [intros w; by eexists | intros _; apply returns_ret].
Qed.

Lemma returns_auto_resolve (self : ServiceDeskAutomation) (t : TicketDict) :
  returns (auto_resolve_ticket self t).
Proof.
  unfold auto_resolve_ticket.
  assert (Hkb : returns
    (hit ← kb_loop knowledge_base (cache_key_of t)
             (lower (t_title t +:+ " " +:+ t_description t));
     match hit with
     | Some resolution => mret (Some resolution)
     | None =>
         if member (t_priority t) [LOW; MEDIUM] then
           resolution ← _generate_ai_resolution self t;
           match resolution with
           | Some (String c s) =>
               _ ← redis_setex (cache_key_of t) 3600 (String c s);
               mret (Some (String c s))
           | _ => mret None
           end
         else mret None
     end)).
  { apply returns_bind; [apply returns_kb_loop |].
    intros [r|]; [apply returns_ret |].
    destruct (member _ _); [| apply returns_ret].
    apply returns_bind; [apply returns_generate_ai |].
    intros [[|c s]|]; [apply returns_ret | | apply returns_ret].
    apply returns_bind; [apply returns_redis_setex |].
    intros _. apply returns_ret. }
  apply returns_bind; [intros w; by eexists |].
  intros [[|c s]|]; [exact Hkb | apply returns_ret | exact Hkb].
Qed.

(** With the roster of the source the balancer always has an answer. *)
Lemma assign_ticket_total (self : ServiceDeskAutomation) (t : TicketDict) :
  ∃ a, assign_ticket self t = Ok a.
Proof.
  unfold assign_ticket, assign_ticket_in.
  destruct (t_category t); vm_compute; by eexists.
Qed.

End pipeline.

(** C4. A ticket that leaves [create_ticket] has at most one of resolution
    and assignee, its status is RESOLVED exactly when a resolution was stored
    and IN_PROGRESS exactly when an assignee was stored, and a stored
    [auto_resolved] flag comes with a non-empty resolution; the route fails
    to return only when the classifier raised. *)
Theorem C4_intake_invariant (automation : ServiceDeskAutomation)
    (ticket : TicketCreate) (w : World) :
  match (create_ticket automation ticket w).2 with
  | Ok (t, resp) => intake_invariant t ∧ response_of t resp
  | Raise e =>
      e = ClassifierRaised ∧
      classifier automation (combined_text ticket) = None
  end.
Proof.
  unfold create_ticket, classify_ticket, combined_text, mbind, M_bind.
  destruct (classifier automation _) as [[category confidence]|];
    [| by split].
  unfold mret, M_ret. cbn [c_priority c_category].
  set (p := _determine_priority _).
  set (t0 := mkTicket _ _ _ _ _ _ _ _ _ _).
  assert (Hroute : ∀ w' : World,
    match
      (let (w'0, r0) := lift_result (assign_ticket automation t0) w' in
       match r0 with
       | Ok a0 => (w'0, Ok (store_assigned t0 a0))
       | Raise e => (w'0, Raise e)
       end)
    with
    | (_, Ok t) => intake_invariant t
    | (_, Raise _) => False
    end).
  { intros w'. unfold lift_result.
    destruct (assign_ticket_total automation t0) as [a ->].
    unfold intake_invariant, store_assigned. cbn.
    repeat split; eauto; try done; by intros [? ?]. }
  destruct (member p [LOW; MEDIUM]).
  - destruct (returns_auto_resolve automation t0 w) as [o Ho].
    destruct (auto_resolve_ticket automation t0 w) as [w1 r].
    cbn [snd] in Ho. subst r.
    destruct o as [[|c s]|]; cbn [truthy_opt truthy negb].
    + specialize (Hroute w1).
      destruct (lift_result (assign_ticket automation t0) w1) as [w2 [a|e]];
        [| done]. cbn [snd]. split; [done | by repeat split].
    + cbn [snd]. split; [| by repeat split].
      unfold intake_invariant, store_resolved. cbn.
      repeat split; eauto; try done; by intros [? ?].
    + specialize (Hroute w1).
      destruct (lift_result (assign_ticket automation t0) w1) as [w2 [a|e]];
        [| done]. cbn [snd]. split; [done | by repeat split].
  - cbn [truthy_opt truthy negb]. specialize (Hroute w).
    destruct (lift_result (assign_ticket automation t0) w) as [w2 [a|e]];
      [| done]. cbn [snd]. split; [done | by repeat split].
Qed.

(** C2, as the code has it. For a ticket whose priority is HIGH or CRITICAL
    the route does not call [auto_resolve_ticket] at all: the store and the
    log are left as they were (no cache read, no knowledge-base write-back,
    no AI call), no resolution is stored, and the ticket is handed to the
    balancer with status IN_PROGRESS, whether or not its text hits a
    knowledge-base entry. *)
Theorem C2_urgent_ticket_is_routed (automation : ServiceDeskAutomation)
    (ticket : TicketCreate) (w : World) (category : Category) (confidence : Q) :
  let p := _determine_priority (combined_text ticket) in
  classifier automation (combined_text ticket) = Some (category, confidence) →
  p = HIGH ∨ p = CRITICAL →
  ∃ t resp assignee,
    create_ticket automation ticket w = (w, Ok (t, resp)) ∧
    assign_ticket automation
      (mkTicket (randint automation) (title ticket) (description ticket)
                category p NEW (user_email ticket) None None None)
      = Ok assignee ∧
    t_category t = category ∧ t_priority t = p ∧
    t_status t = IN_PROGRESS ∧ t_assignee t = Some assignee ∧
    t_resolution t = None ∧ t_auto_resolved t = None ∧
    r_status resp = IN_PROGRESS ∧ r_assignee resp = Some assignee ∧
    r_resolution resp = None.
Proof.
  intros p Hc Hp.
  unfold create_ticket, classify_ticket, mbind, M_bind.
  fold (combined_text ticket). rewrite Hc.
  unfold mret, M_ret. cbn [c_priority c_category]. fold p.
  assert (Hm : member p [LOW; MEDIUM] = false)
    by (destruct Hp as [-> | ->]; reflexivity).
  rewrite Hm. cbn [truthy_opt negb]. unfold lift_result.
  set (t0 := mkTicket _ _ _ _ _ _ _ _ _ _).
  destruct (assign_ticket_total automation t0) as [a Ha]. rewrite Ha.
  eexists _, _, a. by repeat split.
Qed.

Lemma C2_urgent_ticket_is_routed_witness :
  ∃ t resp assignee,
    create_ticket (fixed_engine NETWORK None 10) outage_ticket empty_world
      = (empty_world, Ok (t, resp)) ∧
    t_status t = IN_PROGRESS ∧ t_assignee t = Some assignee ∧
    t_resolution t = None.
Proof.
  destruct (C2_urgent_ticket_is_routed (fixed_engine NETWORK None 10)
              outage_ticket empty_world NETWORK 1%Q)
    as (t & resp & a & H & _ & _ & _ & Hs & Ha & Hr & _).
  - reflexivity.
  - right. vm_compute. reflexivity.
  - exists t, resp, a. repeat split; assumption.
Defined.

(** The outage ticket is CRITICAL and mentions "password", a keyword of the
    first knowledge-base entry; it still leaves the intake assigned and
    unresolved. *)
Lemma C2_counterexample :
  ¬ urgent_kb_match_is_auto_resolved
      (fixed_engine NETWORK None 10) outage_ticket empty_world.
Proof.
  intros H.
  destruct (create_ticket (fixed_engine NETWORK None 10) outage_ticket
              empty_world) as [w' [[t resp]|e]] eqn:Hrun;
    [| vm_compute in Hrun; discriminate Hrun].
  destruct (H w' t resp Hrun) as (Hs & _ & _).
  - vm_compute in Hrun. injection Hrun as _ <- _. by right.
  - exists ("PASSWORD_RESET", kb_PASSWORD_RESET). split.
    + rewrite knowledge_base_entries. in_list.
    + exists "password". split; [unfold kb_PASSWORD_RESET; cbn [kb_keywords]; in_list |].
      apply contains_spec. vm_compute. reflexivity.
  - vm_compute in Hrun. injection Hrun as _ <- _. discriminate Hs.
Qed.

(** C8, as the code has it. [create_ticket] calls [classify_ticket] with no
    handler around it: when the classifier raises, the exception reaches the
    caller, no ticket is produced, and nothing else of the pipeline runs. *)
Theorem C8_classifier_failure_propagates (automation : ServiceDeskAutomation)
    (ticket : TicketCreate) (w : World) :
  classifier automation (combined_text ticket) = None →
  create_ticket automation ticket w = (w, Raise ClassifierRaised).
Proof.
  intros Hc. unfold create_ticket, classify_ticket, mbind, M_bind.
  fold (combined_text ticket). by rewrite Hc.
Qed.

Lemma C8_classifier_failure_propagates_witness :
  create_ticket (failing_engine 10) toner_ticket empty_world
    = (empty_world, Raise ClassifierRaised).
Proof.
  apply (C8_classifier_failure_propagates (failing_engine 10) toner_ticket
           empty_world).
  reflexivity.
Defined.

Lemma C8_counterexample :
  ¬ classifier_failure_defaults_to_OTHER
      (failing_engine 10) toner_ticket empty_world.
Proof.
  intros H. destruct (H eq_refl) as (w' & t & resp & Hrun & _).
  vm_compute in Hrun. discriminate Hrun.
Qed.

(** ** The resolution-time estimator *)

Section estimator.

Lemma dict_get_present {K V} `{EqDecision K} (d : list (K * V)) (k : K)
    (v default : V) :
  NoDup d.*1 → (k, v) ∈ d → dict_get d k default = v.
Proof.
  induction d as [|[k' v'] d IH]; intros Hnd Hin.
  - by apply elem_of_nil in Hin.
  - cbn [dict_get]. rewrite fmap_cons in Hnd. apply NoDup_cons in Hnd.
    destruct Hnd as [Hfresh Hnd]. apply elem_of_cons in Hin.
    destruct Hin as [Heq | Hin].
    + injection Heq as -> ->. by rewrite bool_decide_eq_true_2.
    + rewrite bool_decide_eq_false_2; [by apply IH |].
      intros ->. apply Hfresh. cbn [fst].
      apply list_elem_of_fmap. by exists (k', v).
Qed.

Lemma dict_get_absent {K V} `{EqDecision K} (d : list (K * V)) (k : K)
    (default : V) :
  k ∉ d.*1 → dict_get d k default = default.
Proof.
  induction d as [|[k' v'] d IH]; intros Hout; [done |].
  cbn [dict_get]. rewrite fmap_cons in Hout. apply not_elem_of_cons in Hout.
  destruct Hout as [Hne Hout]. rewrite bool_decide_eq_false_2; [| done].
  by apply IH.
Qed.

Lemma base_times_keys_NoDup : NoDup base_times.*1.
Proof. apply (bool_decide_unpack _). vm_compute. exact I. Qed.

Lemma py_int_scale (b : nat) (n : Z) (d : positive) :
  py_int (Qmult (inject_Z (Z.of_nat b)) (Qmake n d))
  = Z.quot (Z.of_nat b * n) (Zpos d).
Proof. unfold py_int, Qmult, inject_Z. cbn [Qnum Qden]. by rewrite Pos.mul_1_l. Qed.

End estimator.

(** C7, as the code has it. The estimate is the table entry for
    (category, priority), 180 when the pair is not in the table, times 3/2
    when the local hour satisfies 9 <= hour <= 17 (the closed interval: hour
    17 still gets 1.5) and times 4/5 otherwise, truncated to an integer. *)
Theorem C7_estimate_closed_interval (self : ServiceDeskAutomation)
    (ticket : TicketDict) :
  let hour := clock_hour self in
  let key := (t_category ticket, t_priority ticket) in
  ∃ base : nat,
    (∀ b, (key, b) ∈ base_times → base = b) ∧
    (key ∉ base_times.*1 → base = 180) ∧
    (t_category ticket = OTHER → base = 180) ∧
    (9 ≤ hour ≤ 17 →
       predict_resolution_time self ticket = Z.quot (Z.of_nat base * 3) 2) ∧
    (hour = 17 →
       predict_resolution_time self ticket = Z.quot (Z.of_nat base * 3) 2) ∧
    (hour < 9 ∨ 17 < hour →
       predict_resolution_time self ticket = Z.quot (Z.of_nat base * 4) 5).
Proof.
  intros hour key. exists (dict_get base_times key 180).
  assert (Hbusy : 9 ≤ hour ≤ 17 →
            predict_resolution_time self ticket
            = Z.quot (Z.of_nat (dict_get base_times key 180) * 3) 2).
  { intros [H9 H17]. unfold predict_resolution_time. fold hour key.
    apply Nat.leb_le in H9, H17. rewrite H9, H17. cbn [andb].
    apply py_int_scale. }
  repeat split.
  - intros b Hb. by apply dict_get_present; [apply base_times_keys_NoDup |].
  - apply dict_get_absent.
  - intros Hother. unfold key. rewrite Hother. by destruct (t_priority ticket).
  - exact Hbusy.
  - intros H. apply Hbusy. lia.
  - intros Hout. unfold predict_resolution_time. fold hour key.
    assert (Hg : (9 <=? hour) && (hour <=? 17) = false).
    { destruct Hout as [H | H].
      - apply Nat.leb_gt in H. by rewrite H.
      - apply Nat.leb_gt in H. rewrite H. apply andb_false_r. }
    rewrite Hg. apply py_int_scale.
Qed.

Lemma C7_estimate_closed_interval_witness :
  predict_resolution_time (fixed_engine HARDWARE None 17)
    (fresh_ticket 1234 "Server rack" "fan failure in rack 3" HARDWARE CRITICAL)
  = 180%Z.
Proof.
  destruct (C7_estimate_closed_interval (fixed_engine HARDWARE None 17)
              (fresh_ticket 1234 "Server rack" "fan failure in rack 3"
                            HARDWARE CRITICAL))
    as (base & Hb & _ & _ & _ & H17 & _).
  rewrite (H17 eq_refl).
  rewrite (Hb 120); [reflexivity |].
  unfold base_times. cbn [fresh_ticket t_category t_priority]. in_list.
Defined.

(** At hour 17 the code still applies 1.5: HARDWARE/CRITICAL gives
    int(120 * 1.5) = 180, where the half-open reading gives int(120 * 0.8)
    = 96. *)
Lemma C7_counterexample :
  predict_resolution_time (fixed_engine HARDWARE None 17)
    (fresh_ticket 1234 "Server rack" "fan failure in rack 3" HARDWARE CRITICAL)
  = 180%Z ∧
  estimate_spec HARDWARE CRITICAL 17 = 96%Z ∧
  predict_resolution_time (fixed_engine HARDWARE None 17)
    (fresh_ticket 1234 "Server rack" "fan failure in rack 3" HARDWARE CRITICAL)
  ≠ estimate_spec HARDWARE CRITICAL 17.
Proof. repeat split; vm_compute; congruence. Qed.

(** ** The assignment balancer *)

Section balancer.

Lemma head_insert_sorted {A} (key : A → Q) (x : A) (l : list A) :
  head (insert_sorted key x l) =
  match l with
  | [] => Some x
  | y :: _ => if Qle_bool (key x) (key y) then Some x else Some y
  end.
Proof. destruct l as [|y l]; [done |]. cbn. by destruct (Qle_bool _ _). Qed.

(** The head of the sorted candidate list, read back on the roster: it sits
    at a position where every eligible handler before it has a strictly
    larger ratio and every eligible handler after it a ratio at least as
    large. *)
Lemma sorted_candidates_head (roster : list (string * Handler))
    (category : Category) :
  match head (py_sort (λ x, x.2) (suitable_loop roster category)) with
  | None => ∀ e i, (e, i) ∈ roster → eligible category i = false
  | Some (email, r) =>
      ∃ pre info post,
        roster = pre ++ (email, info) :: post ∧
        eligible category info = true ∧ r = workload_ratio info ∧
        (∀ e' i', (e', i') ∈ pre → eligible category i' = true →
           Qlt r (workload_ratio i')) ∧
        (∀ e' i', (e', i') ∈ post → eligible category i' = true →
           Qle r (workload_ratio i'))
  end.
Proof.
  induction roster as [|[e0 i0] rest IH].
  - intros e i Hin. by apply elem_of_nil in Hin.
  - cbn [suitable_loop]. destruct (eligible category i0) eqn:He0.
    + cbn [py_sort]. rewrite head_insert_sorted.
      destruct (py_sort _ (suitable_loop rest category)) as [|[e1 r1] s'].
      * cbn [head] in IH. exists [], i0, rest. repeat split; try done.
        -- intros e' i' Hin. by apply elem_of_nil in Hin.
        -- intros e' i' Hin He'. by rewrite (IH e' i' Hin) in He'.
      * cbn [head] in IH.
        destruct IH as (pre & info & post & Hsplit & He1 & Hr1 & Hpre & Hpost).
        cbn [snd]. destruct (Qle_bool (workload_ratio i0) r1) eqn:Hle.
        -- apply Qle_bool_iff in Hle. exists [], i0, rest.
           repeat split; try done.
           ++ intros e' i' Hin. by apply elem_of_nil in Hin.
           ++ intros e' i' Hin He'. rewrite Hsplit in Hin.
              apply elem_of_app in Hin. destruct Hin as [Hin | Hin].
              ** apply Qlt_le_weak. eapply Qle_lt_trans; [exact Hle |].
                 by apply (Hpre e' i').
              ** apply elem_of_cons in Hin. destruct Hin as [Heq | Hin].
                 --- injection Heq as -> ->. by rewrite <- Hr1.
                 --- eapply Qle_trans; [exact Hle |]. by apply (Hpost e' i').
        -- exists ((e0, i0) :: pre), info, post. repeat split; try done.
           ++ by rewrite Hsplit.
           ++ intros e' i' Hin He'. apply elem_of_cons in Hin.
              destruct Hin as [Heq | Hin]; [| by apply (Hpre e' i')].
              injection Heq as -> ->. apply Qnot_le_lt. intros Hc.
              apply Qle_bool_iff in Hc. by rewrite Hc in Hle.
    + destruct (head (py_sort _ (suitable_loop rest category))) as [[e1 r1]|].
      * destruct IH as (pre & info & post & Hsplit & He1 & Hr1 & Hpre & Hpost).
        exists ((e0, i0) :: pre), info, post. repeat split; try done.
        -- by rewrite Hsplit.
        -- intros e' i' Hin He'. apply elem_of_cons in Hin.
           destruct Hin as [Heq | Hin]; [| by apply (Hpre e' i')].
           injection Heq as -> ->. by rewrite He0 in He'.
      * intros e i Hin. apply elem_of_cons in Hin.
        destruct Hin as [Heq | Hin]; [| by apply (IH e i)].
        by injection Heq as -> ->.
Qed.

Lemma suitable_loop_nil (roster : list (string * Handler)) (category : Category) :
  suitable_loop roster category = [] ↔
  ∀ e i, (e, i) ∈ roster → eligible category i = false.
Proof.
  induction roster as [|[e0 i0] rest IH]; cbn [suitable_loop].
  - split; [| done]. intros _ e i Hin. by apply elem_of_nil in Hin.
  - destruct (eligible category i0) eqn:He0.
    + split; [done |]. intros H. specialize (H e0 i0). rewrite He0 in H.
      discriminate H. by left.
    + rewrite IH. split.
      * intros H e i Hin. apply elem_of_cons in Hin.
        destruct Hin as [Heq | Hin]; [by injection Heq as -> -> | by apply (H e i)].
      * intros H e i Hin. apply (H e i). by right.
Qed.

Lemma py_sort_nil {A} (key : A → Q) (l : list A) :
  py_sort key l = [] → l = [].
Proof.
  destruct l as [|x l]; [done |]. cbn [py_sort].
  destruct (py_sort key l) as [|y s]; cbn; [done |].
  by destruct (Qle_bool _ _).
Qed.

(** The running minimum kept by [min]. *)
Lemma fold_min_spec {A} (key : A → nat) (l : list A) (x : A) :
  let m := fold_left (λ best y, if key y <? key best then y else best) l x in
  m ∈ x :: l ∧ ∀ y, y ∈ x :: l → key m ≤ key y.
Proof.
  revert x. induction l as [|a l IH]; intros x; cbn [fold_left].
  - split; [by left |]. intros y Hy. apply list_elem_of_singleton in Hy.
    by subst y.
  - destruct (key a <? key x) eqn:Hlt.
    + destruct (IH a) as [Hin Hmin]. split; [by right |].
      intros y Hy. apply elem_of_cons in Hy. destruct Hy as [-> | Hy].
      * apply Nat.ltb_lt in Hlt. specialize (Hmin a). 
        assert (a ∈ a :: l) as Ha by (by left). specialize (Hmin Ha). lia.
      * by apply Hmin.
    + destruct (IH x) as [Hin Hmin]. apply Nat.ltb_ge in Hlt. split.
      * apply elem_of_cons in Hin. destruct Hin as [-> | Hin];
          [by left | by right; right].
      * intros y Hy. apply elem_of_cons in Hy. destruct Hy as [-> | Hy].
        -- apply Hmin. by left.
        -- apply elem_of_cons in Hy. destruct Hy as [-> | Hy].
           ++ specialize (Hmin x). 
              assert (x ∈ x :: l) as Hx by (by left). specialize (Hmin Hx). lia.
           ++ apply Hmin. by right.
Qed.

End balancer.

(** C5, as the code has it. When some handler covers the category with load
    below its maximum, the balancer answers with such a handler of lowest
    current_load / max_tickets ratio, and among handlers of equal lowest
    ratio with the one that comes first in the roster's own order (the sort
    is stable); with A at 5/10 and B at 3/12, both skilled, it answers B. *)
Theorem C5_balancer_lowest_ratio_first_listed :
  (∀ (roster : list (string * Handler)) (ticket : TicketDict),
     (∃ e i, (e, i) ∈ roster ∧ eligible (t_category ticket) i = true) →
     ∃ pre email info post,
       roster = pre ++ (email, info) :: post ∧
       eligible (t_category ticket) info = true ∧
       assign_ticket_in roster ticket = Ok email ∧
       (∀ e' i', (e', i') ∈ pre → eligible (t_category ticket) i' = true →
          Qlt (workload_ratio info) (workload_ratio i')) ∧
       (∀ e' i', (e', i') ∈ post → eligible (t_category ticket) i' = true →
          Qle (workload_ratio info) (workload_ratio i'))) ∧
  (∀ (a b : string) (skills_a skills_b : list Category) (ticket : TicketDict),
     member (t_category ticket) skills_a = true →
     member (t_category ticket) skills_b = true →
     assign_ticket_in [(a, mkHandler skills_a 10 5); (b, mkHandler skills_b 12 3)]
                      ticket = Ok b ∧
     assign_ticket_in [(b, mkHandler skills_b 12 3); (a, mkHandler skills_a 10 5)]
                      ticket = Ok b).
Proof.
  split.
  - intros roster ticket (e & i & Hin & He).
    pose proof (sorted_candidates_head roster (t_category ticket)) as Hhead.
    unfold assign_ticket_in.
    destruct (suitable_loop roster (t_category ticket)) as [|c cs] eqn:Hs.
    { pose proof (proj1 (suitable_loop_nil _ _) Hs e i Hin) as Hno.
      by rewrite Hno in He. }
    destruct (py_sort _ (c :: cs)) as [|[email r] s] eqn:Hsort.
    { by apply py_sort_nil in Hsort. }
    cbn [head] in Hhead.
    destruct Hhead as (pre & info & post & Hsplit & Hel & -> & Hpre & Hpost).
    by exists pre, email, info, post.
  - intros a b skills_a skills_b ticket Ha Hb.
    unfold assign_ticket_in. cbn [suitable_loop]. unfold eligible.
    cbn [categories current_load max_tickets]. rewrite Ha, Hb. by cbn.
Qed.

Lemma C5_balancer_lowest_ratio_first_listed_witness :
  assign_ticket_in
    [ ("a@company.com", mkHandler [NETWORK] 10 5);
      ("b@company.com", mkHandler [NETWORK; EMAIL] 12 3) ]
    (fresh_ticket 1234 "VPN not connecting" "cannot reach the VPN gateway"
                  NETWORK LOW)
  = Ok "b@company.com".
Proof.
  apply (proj2 C5_balancer_lowest_ratio_first_listed
           "a@company.com" "b@company.com" [NETWORK] [NETWORK; EMAIL]);
    reflexivity.
Defined.

(** Two NETWORK handlers at 5/10 each: the code answers with the one listed
    first, "zoe...", although "amy..." precedes it in identifier order. *)
Lemma C5_counterexample :
  ¬ lowest_ratio_then_least_identifier tied_roster
      (fresh_ticket 1234 "VPN not connecting" "cannot reach the VPN gateway"
                    NETWORK LOW).
Proof.
  intros H. destruct H as (email & info & Hin & _ & Hrun & Hall).
  - exists "zoe.young@company.com", (mkHandler [NETWORK] 10 5).
    split; [unfold tied_roster; in_list | reflexivity].
  - vm_compute in Hrun. injection Hrun as <-.
    assert (Hinfo : info = mkHandler [NETWORK] 10 5).
    { unfold tied_roster in Hin. apply elem_of_cons in Hin.
      destruct Hin as [Heq | Hin]; [by injection Heq as -> |].
      apply list_elem_of_singleton in Hin. discriminate Hin. }
    subst info.
    destruct (Hall "amy.adams@company.com" (mkHandler [NETWORK] 10 5))
      as [_ Hle].
    + unfold tied_roster. in_list.
    + reflexivity.
    + specialize (Hle (Qeq_refl _)). vm_compute in Hle. exact Hle.
Qed.

(** C6. On a non-empty roster the balancer always answers: when no handler
    covers the category with load below its maximum, it answers with a
    handler of globally smallest current_load, skilled or not; the empty
    candidate list is therefore never an error. *)
Theorem C6_balancer_fallback (roster : list (string * Handler))
    (ticket : TicketDict) :
  roster ≠ [] →
  (∃ email, assign_ticket_in roster ticket = Ok email) ∧
  ((∀ e i, (e, i) ∈ roster → eligible (t_category ticket) i = false) →
   ∃ email info,
     (email, info) ∈ roster ∧
     assign_ticket_in roster ticket = Ok email ∧
     ∀ e' i', (e', i') ∈ roster → current_load info ≤ current_load i').
Proof.
  intros Hne.
  assert (Hfallback :
    suitable_loop roster (t_category ticket) = [] →
    ∃ email info,
      (email, info) ∈ roster ∧
      assign_ticket_in roster ticket = Ok email ∧
      ∀ e' i', (e', i') ∈ roster → current_load info ≤ current_load i').
  { intros Hs. unfold assign_ticket_in. rewrite Hs.
    destruct roster as [|x l]; [done |]. cbn [py_min].
    destruct (fold_min_spec (λ x : string * Handler, current_load x.2) l x)
      as [Hin Hmin].
    set (m := fold_left _ l x) in *. exists m.1, m.2. repeat split.
    - by destruct m.
    - intros e' i' Hin'. exact (Hmin (e', i') Hin'). }
  split.
  - destruct (suitable_loop roster (t_category ticket)) as [|c cs] eqn:Hs.
    + destruct (Hfallback eq_refl) as (email & _ & _ & Hrun & _).
      exists email. unfold assign_ticket_in in *. by rewrite Hs in *.
    + unfold assign_ticket_in. rewrite Hs.
      destruct (py_sort _ (c :: cs)) as [|y s] eqn:Hsort.
      * by apply py_sort_nil in Hsort.
      * by eexists.
  - intros Hnone. apply Hfallback. by apply suitable_loop_nil.
Qed.

Lemma C6_balancer_fallback_witness :
  ∃ email info,
    (email, info) ∈ exhausted_roster ∧
    assign_ticket_in exhausted_roster
      (fresh_ticket 1234 "VPN not connecting" "cannot reach the VPN gateway"
                    NETWORK LOW) = Ok email ∧
    ∀ e' i', (e', i') ∈ exhausted_roster →
      current_load info ≤ current_load i'.
Proof.
  apply (C6_balancer_fallback exhausted_roster
           (fresh_ticket 1234 "VPN not connecting"
                         "cannot reach the VPN gateway" NETWORK LOW)).
  - discriminate.
  - apply suitable_loop_nil. reflexivity.
Defined.

(** Both NETWORK handlers are at their maximum: the ticket goes to the idle
    handler, who has no NETWORK skill. *)
Example exhausted_roster_goes_to_least_loaded :
  assign_ticket_in exhausted_roster
    (fresh_ticket 1234 "VPN not connecting" "cannot reach the VPN gateway"
                  NETWORK LOW) = Ok "jane.smith@company.com".
Proof. reflexivity. Qed.

(** An empty roster is the one input on which [min] raises. *)
Example empty_roster_raises (ticket : TicketDict) :
  assign_ticket_in [] ticket = Raise ValueError.
Proof. reflexivity. Qed.

(** * Further properties of the engine *)

(** ** Symbolic runs *)

Section runs.

Lemma kb_loop_run (kb : list (string * KbEntry)) (key text : string) (w : World) :
  kb_loop kb key text w =
  match List.find (λ e, any_in (kb_keywords e.2) text) kb with
  | Some e => ((redis_setex key 3600 (kb_resolution e.2) w).1,
               Ok (Some (kb_resolution e.2)))
  | None => (w, Ok None)
  end.
Proof.
  induction kb as [|[name e] kb IH]; [done |].
  cbn [kb_loop List.find snd]. by destruct (any_in (kb_keywords e) text).
Qed.

Lemma auto_resolve_run (self : ServiceDeskAutomation) (t : TicketDict)
    (w : World) :
  let key := cache_key_of t in
  let w1 := (redis_get key w).1 in
  let w2 := (emit (EvAiCall (ai_prompt t)) w1).1 in
  auto_resolve_ticket self t w =
  match cached_resolution w key with
  | Some r => (w1, Ok (Some r))
  | None =>
      match kb_first_hit (ticket_text t) with
      | Some e => ((redis_setex key 3600 (kb_resolution e) w1).1,
                   Ok (Some (kb_resolution e)))
      | None =>
          if member (t_priority t) [LOW; MEDIUM] then
            match acreate self (ai_prompt t) with
            | None => ((emit EvPrint w2).1, Ok None)
            | Some reply =>
                if any_in decline_phrases (lower reply) then (w2, Ok None)
                else match reply with
                     | EmptyString => (w2, Ok None)
                     | String c s =>
                         ((redis_setex key 3600 reply w2).1, Ok (Some reply))
                     end
            end
          else (w1, Ok None)
      end
  end.
Proof.
  intros key w1 w2.
  assert (Hmiss :
    (hit ← kb_loop knowledge_base key (ticket_text t);
     match hit with
     | Some resolution => mret (Some resolution)
     | None =>
         if member (t_priority t) [LOW; MEDIUM] then
           resolution ← _generate_ai_resolution self t;
           match resolution with
           | Some (String c s) =>
               _ ← redis_setex key 3600 (String c s);
               mret (Some (String c s))
           | _ => mret None
           end
         else mret None
     end) w1 =
    match kb_first_hit (ticket_text t) with
    | Some e => ((redis_setex key 3600 (kb_resolution e) w1).1,
                 Ok (Some (kb_resolution e)))
    | None =>
        if member (t_priority t) [LOW; MEDIUM] then
          match acreate self (ai_prompt t) with
          | None => ((emit EvPrint w2).1, Ok None)
          | Some reply =>
              if any_in decline_phrases (lower reply) then (w2, Ok None)
              else match reply with
                   | EmptyString => (w2, Ok None)
                   | String c s =>
                       ((redis_setex key 3600 reply w2).1, Ok (Some reply))
                   end
          end
        else (w1, Ok None)
    end).
  { unfold mbind at 1, M_bind at 1. rewrite kb_loop_run. unfold kb_first_hit.
    destruct (List.find _ knowledge_base) as [[name e]|]; [done |].
    cbn [fmap option_fmap option_map].
    destruct (member (t_priority t) [LOW; MEDIUM]); [| done].
    unfold _generate_ai_resolution, mbind, M_bind. cbn [emit].
    fold w2. destruct (acreate self (ai_prompt t)) as [reply|]; [| done].
    destruct (any_in decline_phrases (lower reply)); [done |].
    by destruct reply. }
  unfold auto_resolve_ticket. unfold mbind at 1, M_bind at 1.
  unfold cached_resolution. fold key. cbn [redis_get]. fold w1.
  destruct (redis w !! key) as [[|c s]|]; [exact Hmiss | done | exact Hmiss].
Qed.

End runs.

(** ** The resolution cache and [auto_resolve_ticket] *)

Section cache.

Lemma cached_resolution_Some (w : World) (key r : string) :
  cached_resolution w key = Some r ↔ redis w !! key = Some r ∧ r ≠ "".
Proof.
  unfold cached_resolution. destruct (redis w !! key) as [[|c s]|]; split.
  - done.
  - intros [H Hne]. by injection H as <-.
  - intros H. by injection H as <-.
  - by intros [-> _].
  - done.
  - by intros [H _].
Qed.

Lemma kb_first_hit_nonempty (text : string) (e : KbEntry) :
  kb_first_hit text = Some e → kb_resolution e ≠ "".
Proof.
  unfold kb_first_hit. rewrite knowledge_base_entries.
  destruct (List.find _ _) as [[name e']|] eqn:Hf; [| done].
  intros H. injection H as <-. apply find_some in Hf. destruct Hf as [Hin _].
  cbn [In] in Hin.
  destruct Hin as [H | [H | [H | []]]]; injection H as _ <-; done.
Qed.

Lemma cached_after_setex (w : World) (key r : string) :
  r ≠ "" → cached_resolution (redis_setex key 3600 r w).1 key = Some r.
Proof.
  intros Hne. apply cached_resolution_Some. split; [| done].
  cbn. apply lookup_insert_eq.
Qed.

(** A truthy cached value is returned at once. *)
Lemma auto_resolve_cache_hit (self : ServiceDeskAutomation) (t : TicketDict)
    (w : World) (r : string) :
  cached_resolution w (cache_key_of t) = Some r →
  auto_resolve_ticket self t w =
    ((redis_get (cache_key_of t) w).1, Ok (Some r)).
Proof. intros H. rewrite auto_resolve_run. by rewrite H. Qed.

(** After a successful run the returned text is the cached value. *)
Lemma auto_resolve_leaves_cached (self : ServiceDeskAutomation)
    (t : TicketDict) (w w' : World) (r : string) :
  auto_resolve_ticket self t w = (w', Ok (Some r)) →
  cached_resolution w' (cache_key_of t) = Some r.
Proof.
  rewrite auto_resolve_run.
  destruct (cached_resolution w (cache_key_of t)) as [r0|] eqn:Hc.
  { intros H. injection H as <- <-. exact Hc. }
  destruct (kb_first_hit (ticket_text t)) as [e|] eqn:Hk.
  { intros H. injection H as <- <-. apply cached_after_setex.
    by apply (kb_first_hit_nonempty (ticket_text t)). }
  destruct (member _ _); [| done].
  destruct (acreate self _) as [reply|]; [| done].
  destruct (any_in _ _); [done |]. destruct reply as [|c s]; [done |].
  intros H. injection H as <- <-. by apply cached_after_setex.
Qed.

End cache.

(** X1. A non-empty value stored under the ticket's cache key pre-empts
    everything else: [auto_resolve_ticket] returns it whatever the ticket's
    text and priority are, leaves the store as it is and performs the cache
    read only. *)
Theorem X1_cache_hit_preempts (self : ServiceDeskAutomation) (t : TicketDict)
    (w : World) (r : string) :
  redis w !! cache_key_of t = Some r → r ≠ "" →
  auto_resolve_ticket self t w =
    (mkWorld (redis w) (log w ++ [EvCacheGet (cache_key_of t)]), Ok (Some r)).
Proof.
  intros Hr Hne. apply auto_resolve_cache_hit.
  by apply cached_resolution_Some.
Qed.

Lemma X1_cache_hit_preempts_witness :
  auto_resolve_ticket (fixed_engine NETWORK None 10)
    (fresh_ticket 1234 "Server down" "URGENT: the payroll host is broken"
                  NETWORK CRITICAL)
    (mkWorld {[ "resolution:NETWORK:Server down" := "Restart the host." ]} [])
  = (mkWorld {[ "resolution:NETWORK:Server down" := "Restart the host." ]}
             [EvCacheGet "resolution:NETWORK:Server down"],
     Ok (Some "Restart the host.")).
Proof.
  refine (X1_cache_hit_preempts (fixed_engine NETWORK None 10)
            (fresh_ticket 1234 "Server down"
                          "URGENT: the payroll host is broken" NETWORK CRITICAL)
            (mkWorld {[ "resolution:NETWORK:Server down" := "Restart the host." ]} [])
            "Restart the host." _ _).
  - exact (lookup_singleton_eq "resolution:NETWORK:Server down"
             "Restart the host.").
  - discriminate.
Defined.

(** X2. Write-back: when [auto_resolve_ticket] returns a resolution, the
    store afterwards holds exactly that text under the ticket's cache key;
    when it returns None the store is unchanged. *)
Theorem X2_cache_write_back (self : ServiceDeskAutomation) (t : TicketDict)
    (w : World) :
  (∀ w' r, auto_resolve_ticket self t w = (w', Ok (Some r)) →
     redis w' !! cache_key_of t = Some r) ∧
  (∀ w', auto_resolve_ticket self t w = (w', Ok None) → redis w' = redis w).
Proof.
  split.
  - intros w' r H.
    by destruct (proj1 (cached_resolution_Some _ _ _)
                   (auto_resolve_leaves_cached _ _ _ _ _ H)).
  - intros w'. rewrite auto_resolve_run.
    destruct (cached_resolution w (cache_key_of t)); [done |].
    destruct (kb_first_hit (ticket_text t)); [done |].
    destruct (member _ _); [| by intros H; injection H as <-].
    destruct (acreate self _) as [reply|]; [| by intros H; injection H as <-].
    destruct (any_in _ _); [by intros H; injection H as <- |].
    destruct reply; [by intros H; injection H as <- | done].
Qed.

Lemma X2_cache_write_back_witness :
  redis (auto_resolve_ticket (fixed_engine ACCESS None 10)
           (fresh_ticket 1234 "Forgot my password" "locked out, need reset"
                         ACCESS LOW) empty_world).1
    !! "resolution:ACCESS:Forgot my password"
  = Some PASSWORD_RESET_resolution.
Proof.
  apply (proj1 (X2_cache_write_back (fixed_engine ACCESS None 10)
           (fresh_ticket 1234 "Forgot my password" "locked out, need reset"
                         ACCESS LOW) empty_world)).
  rewrite auto_resolve_run. reflexivity.
Defined.

(** X3. [auto_resolve_ticket] never returns the empty string: an empty cached
    value is skipped, the canned texts are non-empty, and an empty reply of
    the capability is turned into None. *)
Theorem X3_resolution_never_empty (self : ServiceDeskAutomation)
    (t : TicketDict) (w : World) :
  (auto_resolve_ticket self t w).2 ≠ Ok (Some "").
Proof.
  intros H.
  destruct (auto_resolve_ticket self t w) as [w' r] eqn:Hrun. cbn [snd] in H.
  subst r.
  by destruct (proj1 (cached_resolution_Some _ _ _)
                 (auto_resolve_leaves_cached _ _ _ _ _ Hrun)).
Qed.



(** X5. One run of [auto_resolve_ticket] calls the capability at most once,
    and it calls it exactly when the priority is LOW or MEDIUM, the cache has
    no usable value under the ticket's key and no knowledge-base entry hits
    the ticket text. *)
Theorem X5_ai_called_exactly_when (self : ServiceDeskAutomation)
    (t : TicketDict) (w : World) :
  ∃ evs,
    log (auto_resolve_ticket self t w).1 = log w ++ evs ∧
    ai_calls evs ≤ 1 ∧
    (ai_calls evs = 1 ↔
       (t_priority t = LOW ∨ t_priority t = MEDIUM) ∧
       cached_resolution w (cache_key_of t) = None ∧
       kb_first_hit (ticket_text t) = None).
Proof.
  rewrite auto_resolve_run.
  destruct (cached_resolution w (cache_key_of t)) as [r|].
  { exists [EvCacheGet (cache_key_of t)].
    split; [reflexivity |]. split; [cbn; lia |]. split.
    - intros H. discriminate H.
    - intros (_ & H & _). discriminate H. }
  destruct (kb_first_hit (ticket_text t)) as [e|].
  { exists [EvCacheGet (cache_key_of t);
            EvCacheSetex (cache_key_of t) 3600 (kb_resolution e)].
    split; [cbn; by rewrite <- app_assoc |]. split; [cbn; lia |]. split.
    - intros H. discriminate H.
    - intros (_ & _ & H). discriminate H. }
  destruct (member (t_priority t) [LOW; MEDIUM]) eqn:Hm.
  - assert (Hp : t_priority t = LOW ∨ t_priority t = MEDIUM)
      by (destruct (t_priority t); [by left | by right | done | done]).
    assert (∃ tail, Forall (λ ev, is_ai_call ev = false) tail ∧
              log (match acreate self (ai_prompt t) with
                   | Some reply =>
                       if any_in decline_phrases (lower reply)
                       then ((emit (EvAiCall (ai_prompt t))
                                (redis_get (cache_key_of t) w).1).1,
                             @Ok (option string) None)
                       else match reply with
                            | EmptyString =>
                                ((emit (EvAiCall (ai_prompt t))
                                    (redis_get (cache_key_of t) w).1).1,
                                 Ok None)
                            | String c s =>
                                ((redis_setex (cache_key_of t) 3600 reply
                                    (emit (EvAiCall (ai_prompt t))
                                       (redis_get (cache_key_of t) w).1).1).1,
                                 Ok (Some reply))
                            end
                   | None =>
                       ((emit EvPrint
                           (emit (EvAiCall (ai_prompt t))
                              (redis_get (cache_key_of t) w).1).1).1, Ok None)
                   end).1
              = log w ++ [EvCacheGet (cache_key_of t);
                          EvAiCall (ai_prompt t)] ++ tail)
      as (tail & Htail & Hlog).
    { destruct (acreate self (ai_prompt t)) as [reply|].
      - destruct (any_in decline_phrases (lower reply)).
        + exists []. split; [constructor |]. cbn. by rewrite <- app_assoc.
        + destruct reply as [|c s].
          * exists []. split; [constructor |]. cbn. by rewrite <- app_assoc.
          * exists [EvCacheSetex (cache_key_of t) 3600 (String c s)].
            split; [by repeat constructor |]. cbn. by rewrite <- !app_assoc.
      - exists [EvPrint]. split; [by repeat constructor |]. cbn.
        by rewrite <- !app_assoc. }
    exists ([EvCacheGet (cache_key_of t); EvAiCall (ai_prompt t)] ++ tail).
    split; [exact Hlog |].
    assert (Hcount : ai_calls ([EvCacheGet (cache_key_of t);
                                EvAiCall (ai_prompt t)] ++ tail) = 1).
    { unfold ai_calls. cbn. f_equal.
      clear Hlog. induction Htail as [|ev tail Hev _ IH]; [done |].
      cbn. by rewrite Hev. }
    rewrite Hcount. split; [lia |]. split; [by intros _ | done].
  - exists [EvCacheGet (cache_key_of t)].
    split; [reflexivity |]. split; [cbn; lia |]. split.
    + intros H. discriminate H.
    + intros ([H | H] & _); rewrite H in Hm; discriminate Hm.
Qed.

(** ** The priority classifier on longer texts *)

Section priority_growth.

Lemma Occurs_extend (w s p q : string) :
  Occurs w s → Occurs w (p +:+ s +:+ q).
Proof.
  intros [x [y ->]]. exists (p +:+ x), (y +:+ q).
  by rewrite !append_assoc.
Qed.

Lemma any_in_extend (words : list string) (a t b : string) :
  any_in words (lower t) = true →
  any_in words (lower (a +:+ t +:+ b)) = true.
Proof.
  rewrite !any_in_spec. intros (w & Hin & Hocc). exists w. split; [done |].
  rewrite !lower_append. by apply Occurs_extend.
Qed.

Lemma priority_rank_extend (a t b : string) :
  priority_rank (_determine_priority t)
  ≤ priority_rank (_determine_priority (a +:+ t +:+ b)).
Proof.
  unfold _determine_priority.
  pose proof (any_in_extend critical_keywords a t b) as Hc.
  pose proof (any_in_extend high_keywords a t b) as Hh.
  pose proof (any_in_extend medium_keywords a t b) as Hm.
  destruct (any_in critical_keywords (lower t)),
           (any_in high_keywords (lower t)),
           (any_in medium_keywords (lower t)),
           (any_in critical_keywords (lower (a +:+ t +:+ b))),
           (any_in high_keywords (lower (a +:+ t +:+ b))),
           (any_in medium_keywords (lower (a +:+ t +:+ b)));
    cbn; try lia;
    first [ by specialize (Hc eq_refl)
          | by specialize (Hh eq_refl)
          | by specialize (Hm eq_refl) ].
Qed.

Lemma append_empty_r (s : string) : s +:+ "" = s.
Proof. induction s as [|c s IH]; [done |]. rewrite append_cons. by f_equal. Qed.

End priority_growth.

(** X7. Adding text never lowers the priority: the priority of a text is at
    most that of any text that contains it. In particular the priority that
    [classify_ticket] computes on "title description" is at least the
    priority of the title alone and of the description alone. *)
Theorem X7_priority_never_lowered_by_more_text :
  (∀ a t b : string,
     priority_rank (_determine_priority t)
     ≤ priority_rank (_determine_priority (a +:+ t +:+ b))) ∧
  (∀ ticket : TicketCreate,
     priority_rank (_determine_priority (title ticket))
     ≤ priority_rank (_determine_priority (combined_text ticket)) ∧
     priority_rank (_determine_priority (description ticket))
     ≤ priority_rank (_determine_priority (combined_text ticket))).
Proof.
  split; [exact priority_rank_extend |]. intros ticket. unfold combined_text.
  split.
  - exact (priority_rank_extend "" (title ticket) (" " +:+ description ticket)).
  - pose proof (priority_rank_extend (title ticket +:+ " ")
                  (description ticket) "") as H.
    by rewrite append_empty_r, append_assoc in H.
Qed.

(** X8. The title and the description are joined by one space before the
    keyword test, so a keyword with a space in it can straddle the two
    fields: a title ending in "cannot" and a description starting with
    "work" (in any letter case) make the ticket at least HIGH, whatever the
    rest of either field is. *)
Theorem X8_keyword_straddles_title_and_description
    (a b u v mail : string) :
  lower u = "cannot" → lower v = "work" →
  2 ≤ priority_rank
        (_determine_priority
           (combined_text (mkTicketCreate (a +:+ u) (v +:+ b) mail))).
Proof.
  intros Hu Hv. unfold combined_text. cbn [title description].
  assert (Hocc : Occurs "cannot work"
                   (lower ((a +:+ u) +:+ " " +:+ v +:+ b))).
  { exists (lower a), (lower b).
    rewrite !lower_append, Hu, Hv, !append_assoc. reflexivity. }
  unfold _determine_priority.
  destruct (any_in critical_keywords _); [cbn; lia |].
  assert (Hh : any_in high_keywords
                 (lower ((a +:+ u) +:+ " " +:+ v +:+ b)) = true).
  { apply any_in_spec. exists "cannot work". split; [| exact Hocc].
    unfold high_keywords. in_list. }
  rewrite Hh. cbn. lia.
Qed.

Lemma X8_keyword_straddles_title_and_description_witness :
  _determine_priority "Since Monday I Cannot" = LOW ∧
  _determine_priority "Work from the office laptop" = LOW ∧
  2 ≤ priority_rank
        (_determine_priority
           (combined_text
              (mkTicketCreate ("Since Monday I " +:+ "Cannot")
                              ("Work" +:+ " from the office laptop")
                              "ann@company.com"))).
Proof.
  split; [reflexivity |]. split; [reflexivity |].
  apply (X8_keyword_straddles_title_and_description
           "Since Monday I " " from the office laptop" "Cannot" "Work"
           "ann@company.com"); reflexivity.
Defined.

(** ** The intake route, path by path *)

Section route.

Lemma create_ticket_run (automation : ServiceDeskAutomation)
    (ticket : TicketCreate) (w : World) :
  create_ticket automation ticket w =
  match classifier automation (combined_text ticket) with
  | None => (w, Raise ClassifierRaised)
  | Some (category, confidence) =>
      let t0 := draft_ticket automation ticket category in
      if member (t_priority t0) [LOW; MEDIUM] then
        match auto_resolve_ticket automation t0 w with
        | (w1, Ok (Some (String c s))) =>
            (w1, Ok (respond automation (store_resolved t0 (String c s))))
        | (w1, Ok _) =>
            match assign_ticket automation t0 with
            | Ok a => (w1, Ok (respond automation (store_assigned t0 a)))
            | Raise e => (w1, Raise e)
            end
        | (w1, Raise e) => (w1, Raise e)
        end
      else
        match assign_ticket automation t0 with
        | Ok a => (w, Ok (respond automation (store_assigned t0 a)))
        | Raise e => (w, Raise e)
        end
  end.
Proof.
  unfold create_ticket, classify_ticket, mbind, M_bind.
  fold (combined_text ticket).
  destruct (classifier automation (combined_text ticket))
    as [[category confidence]|]; [| done].
  unfold mret, M_ret. cbn [c_priority c_category].
  fold (draft_ticket automation ticket category).
  set (t0 := draft_ticket automation ticket category).
  change (_determine_priority (combined_text ticket)) with (t_priority t0).
  destruct (member (t_priority t0) [LOW; MEDIUM]).
  - destruct (auto_resolve_ticket automation t0 w) as [w1 [[[|c s]|]|e]];
      cbn [truthy_opt truthy negb]; unfold lift_result; try done;
      by destruct (assign_ticket automation t0).
  - cbn [truthy_opt negb]. unfold lift_result.
    by destruct (assign_ticket automation t0).
Qed.

Lemma low_or_medium (p : Priority) :
  p = LOW ∨ p = MEDIUM → member p [LOW; MEDIUM] = true.
Proof. by intros [-> | ->]. Qed.

End route.

(** X9. A LOW or MEDIUM ticket whose text hits a knowledge-base entry always
    leaves the intake RESOLVED and unassigned, without any call of the
    capability; unless the cache already holds a text under its key, the
    resolution is the canned text of the first entry that hits. *)
Theorem X9_kb_hit_resolves_low_and_medium (automation : ServiceDeskAutomation)
    (ticket : TicketCreate) (w : World) (category : Category) (confidence : Q)
    (e : KbEntry) :
  let p := _determine_priority (combined_text ticket) in
  let t0 := draft_ticket automation ticket category in
  classifier automation (combined_text ticket) = Some (category, confidence) →
  p = LOW ∨ p = MEDIUM →
  kb_first_hit (lower (combined_text ticket)) = Some e →
  ∃ w' r,
    create_ticket automation ticket w
      = (w', Ok (respond automation (store_resolved t0 r))) ∧
    r ≠ "" ∧
    (cached_resolution w (cache_key_of t0) = None → r = kb_resolution e) ∧
    no_ai_since w w'.
Proof.
  intros p t0 Hc Hp Hk. rewrite create_ticket_run, Hc. cbv zeta. fold t0.
  rewrite (low_or_medium _ Hp : member (t_priority t0) [LOW; MEDIUM] = true).
  rewrite auto_resolve_run. cbv zeta.
  change (ticket_text t0) with (lower (combined_text ticket)). rewrite Hk.
  destruct (cached_resolution w (cache_key_of t0)) as [r|] eqn:Hcache.
  - apply cached_resolution_Some in Hcache as Hr. destruct Hr as [_ Hne].
    destruct r as [|c s]; [done |].
    exists (redis_get (cache_key_of t0) w).1, (String c s).
    repeat split; [done | done | apply quiet_redis_get].
  - pose proof (kb_first_hit_nonempty _ _ Hk) as Hne.
    destruct (kb_resolution e) as [|c s] eqn:Hres; [done |].
    eexists _, (String c s). repeat split; [done |].
    eapply no_ai_trans; [apply quiet_redis_get | apply quiet_redis_setex].
Qed.

Lemma X9_kb_hit_resolves_low_and_medium_witness :
  ∃ w' r,
    create_ticket (fixed_engine NETWORK (Some "Reboot the router.") 10)
      (mkTicketCreate "Office wifi" "the wireless drops every hour"
                      "ann@company.com") empty_world
    = (w', Ok (respond (fixed_engine NETWORK (Some "Reboot the router.") 10)
                 (store_resolved
                    (draft_ticket
                       (fixed_engine NETWORK (Some "Reboot the router.") 10)
                       (mkTicketCreate "Office wifi"
                          "the wireless drops every hour" "ann@company.com")
                       NETWORK) r))) ∧
    r = WIFI_CONNECTION_resolution ∧ no_ai_since empty_world w'.
Proof.
  destruct (X9_kb_hit_resolves_low_and_medium
              (fixed_engine NETWORK (Some "Reboot the router.") 10)
              (mkTicketCreate "Office wifi" "the wireless drops every hour"
                              "ann@company.com")
              empty_world NETWORK 1%Q kb_WIFI_CONNECTION)
    as (w' & r & Hrun & _ & Hr & Hquiet).
  - reflexivity.
  - left. reflexivity.
  - reflexivity.
  - exists w', r. split; [exact Hrun |]. split; [| exact Hquiet].
    apply Hr. reflexivity.
Defined.

(** X10. When the capability is of no use for a LOW or MEDIUM ticket that
    misses the cache and the knowledge base (the call raises, the reply
    contains a decline phrase, or the reply is empty), the intake still
    returns: the ticket is handed to the balancer with status IN_PROGRESS and
    nothing is written to the cache. *)
Theorem X10_unusable_ai_reply_routes_ticket (automation : ServiceDeskAutomation)
    (ticket : TicketCreate) (w : World) (category : Category) (confidence : Q) :
  let p := _determine_priority (combined_text ticket) in
  let t0 := draft_ticket automation ticket category in
  classifier automation (combined_text ticket) = Some (category, confidence) →
  p = LOW ∨ p = MEDIUM →
  cached_resolution w (cache_key_of t0) = None →
  kb_first_hit (lower (combined_text ticket)) = None →
  (acreate automation (ai_prompt t0) = None ∨
   acreate automation (ai_prompt t0) = Some "" ∨
   ∃ reply, acreate automation (ai_prompt t0) = Some reply ∧ declined reply) →
  ∃ w' a,
    create_ticket automation ticket w
      = (w', Ok (respond automation (store_assigned t0 a))) ∧
    assign_ticket automation t0 = Ok a ∧
    redis w' = redis w ∧
    ai_calls (drop (length (log w)) (log w')) = 1.
Proof.
  intros p t0 Hc Hp Hcache Hk Hai. rewrite create_ticket_run, Hc. cbv zeta.
  fold t0.
  rewrite (low_or_medium _ Hp : member (t_priority t0) [LOW; MEDIUM] = true).
  rewrite auto_resolve_run. cbv zeta.
  change (ticket_text t0) with (lower (combined_text ticket)).
  rewrite Hcache, Hk.
  rewrite (low_or_medium _ Hp : member (t_priority t0) [LOW; MEDIUM] = true).
  destruct (assign_ticket_total automation t0) as [a Ha]. rewrite Ha.
  assert (Hdrop : ∀ tail,
            ai_calls (drop (length (log w))
                        ((log w ++ [EvCacheGet (cache_key_of t0)]) ++
                         [EvAiCall (ai_prompt t0)] ++ tail))
            = ai_calls (EvCacheGet (cache_key_of t0)
                        :: EvAiCall (ai_prompt t0) :: tail)).
  { intros tail. rewrite <- app_assoc. by rewrite drop_app_length. }
  destruct Hai as [Hnone | [Hempty | (reply & Hreply & Hdecl)]].
  - rewrite Hnone. eexists _, a. repeat split. cbn [emit redis_get fst log].
    rewrite <- app_assoc. exact (Hdrop [EvPrint]).
  - rewrite Hempty. cbn [lower]. 
    assert (Hno : any_in decline_phrases "" = false) by reflexivity.
    rewrite Hno. eexists _, a. repeat split. cbn [emit redis_get fst log].
    pose proof (Hdrop []) as H. by rewrite app_nil_r in H.
  - rewrite Hreply.
    assert (Hyes : any_in decline_phrases (lower reply) = true)
      by (by apply any_in_spec).
    rewrite Hyes. eexists _, a. repeat split. cbn [emit redis_get fst log].
    pose proof (Hdrop []) as H. by rewrite app_nil_r in H.
Qed.

Lemma X10_unusable_ai_reply_routes_ticket_witness :
  ∃ w' a,
    create_ticket (fixed_engine OTHER (Some "Please CONTACT IT for a new unit.") 10)
      toner_ticket empty_world
    = (w', Ok (respond
                 (fixed_engine OTHER (Some "Please CONTACT IT for a new unit.") 10)
                 (store_assigned
                    (draft_ticket
                       (fixed_engine OTHER
                          (Some "Please CONTACT IT for a new unit.") 10)
                       toner_ticket OTHER) a))) ∧
    redis w' = redis empty_world.
Proof.
  destruct (X10_unusable_ai_reply_routes_ticket
              (fixed_engine OTHER (Some "Please CONTACT IT for a new unit.") 10)
              toner_ticket empty_world OTHER 1%Q)
    as (w' & a & Hrun & _ & Hstore & _).
  - reflexivity.
  - left. reflexivity.
  - reflexivity.
  - reflexivity.
  - right. right. exists "Please CONTACT IT for a new unit.".
    split; [reflexivity |]. exists "contact it".
    split; [unfold decline_phrases; in_list |].
    apply contains_spec. vm_compute. reflexivity.
  - exists w', a. split; [exact Hrun | exact Hstore].
Defined.

(** X11. When a LOW or MEDIUM ticket misses the cache and the knowledge base
    and the capability replies with a non-empty text free of decline
    phrases, the intake resolves the ticket with that reply verbatim, stores
    it under the ticket's cache key and assigns nobody. *)
Theorem X11_ai_reply_resolves_and_is_cached (automation : ServiceDeskAutomation)
    (ticket : TicketCreate) (w : World) (category : Category) (confidence : Q)
    (reply : string) :
  let p := _determine_priority (combined_text ticket) in
  let t0 := draft_ticket automation ticket category in
  classifier automation (combined_text ticket) = Some (category, confidence) →
  p = LOW ∨ p = MEDIUM →
  cached_resolution w (cache_key_of t0) = None →
  kb_first_hit (lower (combined_text ticket)) = None →
  acreate automation (ai_prompt t0) = Some reply →
  reply ≠ "" → ¬ declined reply →
  ∃ w',
    create_ticket automation ticket w
      = (w', Ok (respond automation (store_resolved t0 reply))) ∧
    redis w' = <[cache_key_of t0 := reply]> (redis w).
Proof.
  intros p t0 Hc Hp Hcache Hk Hreply Hne Hdecl.
  rewrite create_ticket_run, Hc. cbv zeta. fold t0.
  rewrite (low_or_medium _ Hp : member (t_priority t0) [LOW; MEDIUM] = true).
  rewrite auto_resolve_run. cbv zeta.
  change (ticket_text t0) with (lower (combined_text ticket)).
  rewrite Hcache, Hk.
  rewrite (low_or_medium _ Hp : member (t_priority t0) [LOW; MEDIUM] = true).
  rewrite Hreply.
  assert (Hno : any_in decline_phrases (lower reply) = false)
    by (by apply any_in_false).
  rewrite Hno. destruct reply as [|c s]; [done |]. by eexists.
Qed.

Lemma X11_ai_reply_resolves_and_is_cached_witness :
  ∃ w',
    create_ticket (fixed_engine OTHER (Some "Replace the cartridge.") 10)
      toner_ticket empty_world
    = (w', Ok (respond (fixed_engine OTHER (Some "Replace the cartridge.") 10)
                 (store_resolved
                    (draft_ticket
                       (fixed_engine OTHER (Some "Replace the cartridge.") 10)
                       toner_ticket OTHER)
                    "Replace the cartridge."))) ∧
    redis w' = <[ "resolution:OTHER:Printer toner" := "Replace the cartridge." ]>
                 (redis empty_world).
Proof.
  apply (X11_ai_reply_resolves_and_is_cached
           (fixed_engine OTHER (Some "Replace the cartridge.") 10)
           toner_ticket empty_world OTHER 1%Q "Replace the cartridge.");
    try reflexivity.
  - left. reflexivity.
  - discriminate.
  - intros H. apply any_in_spec in H. vm_compute in H. discriminate H.
Defined.



(** X13. Whatever path the intake takes, the response carries the generated
    id, the submitted title, the classifier's category, the keyword priority
    of "title description", and an estimate that depends on category,
    priority and hour only: an auto-resolved ticket gets the same estimate
    as a routed one. *)
Theorem X13_response_fields (automation : ServiceDeskAutomation)
    (ticket : TicketCreate) (w w' : World) (t : TicketDict)
    (resp : TicketResponse) :
  create_ticket automation ticket w = (w', Ok (t, resp)) →
  ∃ category confidence,
    classifier automation (combined_text ticket) = Some (category, confidence) ∧
    r_id resp = randint automation ∧
    r_title resp = title ticket ∧
    r_category resp = category ∧
    r_priority resp = _determine_priority (combined_text ticket) ∧
    r_estimated_resolution_time resp
      = predict_resolution_time automation
          (draft_ticket automation ticket category).
Proof.
  intros Hrun. rewrite create_ticket_run in Hrun.
  destruct (classifier automation (combined_text ticket))
    as [[category confidence]|]; [| done].
  exists category, confidence. split; [done |].
  cbv zeta in Hrun. set (t0 := draft_ticket automation ticket category) in *.
  assert (Hres : ∀ r, respond automation (store_resolved t0 r) = (t, resp) →
            r_id resp = randint automation ∧ r_title resp = title ticket ∧
            r_category resp = category ∧
            r_priority resp = _determine_priority (combined_text ticket) ∧
            r_estimated_resolution_time resp
              = predict_resolution_time automation t0).
  { intros r H. injection H as <- <-. by repeat split. }
  assert (Hass : ∀ a, respond automation (store_assigned t0 a) = (t, resp) →
            r_id resp = randint automation ∧ r_title resp = title ticket ∧
            r_category resp = category ∧
            r_priority resp = _determine_priority (combined_text ticket) ∧
            r_estimated_resolution_time resp
              = predict_resolution_time automation t0).
  { intros a H. injection H as <- <-. by repeat split. }
  destruct (member (t_priority t0) [LOW; MEDIUM]).
  - destruct (auto_resolve_ticket automation t0 w) as [w1 [[[|c s]|]|e]];
      try done.
    + destruct (assign_ticket automation t0) as [a|]; [| done].
      apply (Hass a). congruence.
    + apply (Hres (String c s)). congruence.
    + destruct (assign_ticket automation t0) as [a|]; [| done].
      apply (Hass a). congruence.
  - destruct (assign_ticket automation t0) as [a|]; [| done].
    apply (Hass a). congruence.
Qed.

Lemma X13_response_fields_witness :
  let engine := fixed_engine ACCESS None 20 in
  let ticket := mkTicketCreate "Forgot my password" "locked out, need reset"
                               "ann@company.com" in
  let resp := (respond engine
                 (store_resolved (draft_ticket engine ticket ACCESS)
                                 PASSWORD_RESET_resolution)).2 in
  ∃ category confidence,
    classifier engine (combined_text ticket) = Some (category, confidence) ∧
    r_id resp = randint engine ∧
    r_title resp = title ticket ∧
    r_category resp = category ∧
    r_priority resp = _determine_priority (combined_text ticket) ∧
    r_estimated_resolution_time resp
      = predict_resolution_time engine (draft_ticket engine ticket category).
Proof.
  intros engine ticket resp.
  apply (X13_response_fields engine ticket empty_world
           (create_ticket engine ticket empty_world).1
           (store_resolved (draft_ticket engine ticket ACCESS)
                           PASSWORD_RESET_resolution) resp).
  rewrite create_ticket_run. reflexivity.
Defined.

Section frame.

Lemma auto_resolve_frame (self : ServiceDeskAutomation) (t : TicketDict)
    (w : World) (k : string) :
  k ≠ cache_key_of t →
  redis (auto_resolve_ticket self t w).1 !! k = redis w !! k.
Proof.
  intros Hk. rewrite auto_resolve_run.
  destruct (cached_resolution w (cache_key_of t)); [done |].
  destruct (kb_first_hit (ticket_text t)) as [e|].
  { cbn. by rewrite lookup_insert_ne. }
  destruct (member _ _); [| done].
  destruct (acreate self _) as [reply|]; [| done].
  destruct (any_in _ _); [done |]. destruct reply as [|c s]; [done |].
  cbn. by rewrite lookup_insert_ne.
Qed.

End frame.

(** X6. The engine writes at most one cache slot per ticket, the one keyed
    by the ticket's category and the first 50 characters of its title: every
    other key of the store reads as before, after [auto_resolve_ticket] and
    after the whole intake route. *)
Theorem X6_other_keys_untouched :
  (∀ (self : ServiceDeskAutomation) (t : TicketDict) (w : World) (k : string),
     k ≠ cache_key_of t →
     redis (auto_resolve_ticket self t w).1 !! k = redis w !! k) ∧
  (∀ (automation : ServiceDeskAutomation) (ticket : TicketCreate) (w : World)
     (k : string),
     (∀ c, k ≠ "resolution:" +:+ category_value c +:+ ":" +:+
               take 50 (title ticket)) →
     redis (create_ticket automation ticket w).1 !! k = redis w !! k).
Proof.
  split; [exact auto_resolve_frame |].
  intros automation ticket w k Hk. rewrite create_ticket_run.
  destruct (classifier automation (combined_text ticket))
    as [[category confidence]|]; [| done].
  cbv zeta. set (t0 := draft_ticket automation ticket category).
  destruct (member (t_priority t0) [LOW; MEDIUM]).
  - pose proof (auto_resolve_frame automation t0 w k (Hk category)) as Hf.
    destruct (auto_resolve_ticket automation t0 w) as [w1 [[[|c s]|]|e]];
      cbn [fst] in Hf; try done;
      by destruct (assign_ticket automation t0).
  - by destruct (assign_ticket automation t0).
Qed.

Lemma X6_other_keys_untouched_witness :
  redis (auto_resolve_ticket (fixed_engine ACCESS None 10)
           (fresh_ticket 1234 "Forgot my password" "locked out, need reset"
                         ACCESS LOW)
           (mkWorld {[ "resolution:EMAIL:Outlook" := "Restart Outlook." ]} [])).1
    !! "resolution:EMAIL:Outlook"
  = Some "Restart Outlook.".
Proof.
  rewrite (proj1 X6_other_keys_untouched (fixed_engine ACCESS None 10)
             (fresh_ticket 1234 "Forgot my password" "locked out, need reset"
                           ACCESS LOW)
             (mkWorld {[ "resolution:EMAIL:Outlook" := "Restart Outlook." ]} [])
             "resolution:EMAIL:Outlook").
  - exact (lookup_singleton_eq "resolution:EMAIL:Outlook" "Restart Outlook.").
  - discriminate.
Defined.

(** ** The estimator on the whole table *)

(** X14. Every estimate lies between 24 and 720 minutes, whatever the
    category, the priority and the hour. *)
Theorem X14_estimate_bounds (self : ServiceDeskAutomation) (ticket : TicketDict) :
  (24 ≤ predict_resolution_time self ticket ≤ 720)%Z.
Proof.
  unfold predict_resolution_time.
  destruct (t_category ticket), (t_priority ticket),
    ((9 <=? clock_hour self) && (clock_hour self <=? 17));
    vm_compute; split; discriminate.
Qed.

(** X15. For one and the same ticket the estimate made at an hour from 9 to
    17 is strictly larger than the estimate made at any other hour. *)
Theorem X15_estimate_larger_in_business_hours
    (busy quiet_hours : ServiceDeskAutomation) (ticket : TicketDict) :
  9 ≤ clock_hour busy ≤ 17 →
  clock_hour quiet_hours < 9 ∨ 17 < clock_hour quiet_hours →
  (predict_resolution_time quiet_hours ticket
   < predict_resolution_time busy ticket)%Z.
Proof.
  intros [H9 H17] Hout. unfold predict_resolution_time.
  apply Nat.leb_le in H9, H17. rewrite H9, H17.
  assert (Hg : (9 <=? clock_hour quiet_hours)
               && (clock_hour quiet_hours <=? 17) = false).
  { destruct Hout as [H | H]; apply Nat.leb_gt in H; rewrite H;
      [done | apply andb_false_r]. }
  rewrite Hg.
  destruct (t_category ticket), (t_priority ticket); vm_compute; reflexivity.
Qed.

Lemma X15_estimate_larger_in_business_hours_witness :
  (predict_resolution_time (fixed_engine EMAIL None 18)
     (fresh_ticket 1234 "Outlook" "mail does not sync" EMAIL CRITICAL)
   < predict_resolution_time (fixed_engine EMAIL None 17)
       (fresh_ticket 1234 "Outlook" "mail does not sync" EMAIL CRITICAL))%Z.
Proof.
  apply (X15_estimate_larger_in_business_hours
           (fixed_engine EMAIL None 17) (fixed_engine EMAIL None 18)).
  - cbn. lia.
  - right. cbn. lia.
Defined.

(** X16. Within a category, at a given hour, a more urgent ticket never gets
    a longer estimate than a less urgent one. *)
Theorem X16_estimate_monotone_in_priority (self : ServiceDeskAutomation)
    (t t' : TicketDict) :
  t_category t' = t_category t →
  priority_rank (t_priority t) ≤ priority_rank (t_priority t') →
  (predict_resolution_time self t' ≤ predict_resolution_time self t)%Z.
Proof.
  intros Hc Hp. unfold predict_resolution_time. rewrite Hc.
  destruct (t_category t), (t_priority t), (t_priority t'),
    ((9 <=? clock_hour self) && (clock_hour self <=? 17));
    cbn in Hp; try lia; vm_compute; discriminate.
Qed.

Lemma X16_estimate_monotone_in_priority_witness :
  (predict_resolution_time (fixed_engine NETWORK None 10)
     (fresh_ticket 1 "VPN" "the gateway is unreachable" NETWORK CRITICAL)
   ≤ predict_resolution_time (fixed_engine NETWORK None 10)
       (fresh_ticket 2 "VPN" "the gateway is slow" NETWORK MEDIUM))%Z.
Proof.
  apply (X16_estimate_monotone_in_priority (fixed_engine NETWORK None 10)).
  - reflexivity.
  - cbn. lia.
Defined.

(** ** The balancer: fallback order, failure, and the roster of the source *)

Section fallback.

(** [min] keeps the first of the smallest elements: the invariant of its
    left-to-right scan. *)
Lemma fold_min_first {A} (key : A → nat) (l : list A) :
  ∀ (pre : list A) (best : A) (mid : list A),
    (∀ y, y ∈ pre → key best < key y) →
    (∀ y, y ∈ mid → key best ≤ key y) →
    let m := fold_left (λ best y, if key y <? key best then y else best)
                       l best in
    ∃ pre' post',
      pre ++ best :: mid ++ l = pre' ++ m :: post' ∧
      (∀ y, y ∈ pre' → key m < key y) ∧
      (∀ y, y ∈ post' → key m ≤ key y).
Proof.
  induction l as [|a l IH]; intros pre best mid Hpre Hmid; cbn [fold_left].
  - exists pre, mid. by rewrite app_nil_r.
  - destruct (key a <? key best) eqn:Hlt.
    + apply Nat.ltb_lt in Hlt.
      destruct (IH (pre ++ best :: mid) a []) as (pre' & post' & Heq & H1 & H2).
      * intros y Hy. apply elem_of_app in Hy. destruct Hy as [Hy | Hy].
        -- specialize (Hpre y Hy). lia.
        -- apply elem_of_cons in Hy. destruct Hy as [-> | Hy]; [lia |].
           specialize (Hmid y Hy). lia.
      * intros y Hy. by apply elem_of_nil in Hy.
      * exists pre', post'. split; [| done].
        rewrite <- Heq. cbn [app]. by rewrite <- app_assoc.
    + apply Nat.ltb_ge in Hlt.
      destruct (IH pre best (mid ++ [a])) as (pre' & post' & Heq & H1 & H2).
      * exact Hpre.
      * intros y Hy. apply elem_of_app in Hy. destruct Hy as [Hy | Hy].
        -- by apply Hmid.
        -- apply list_elem_of_singleton in Hy. by subst y.
      * exists pre', post'. split; [| done].
        rewrite <- Heq. by rewrite <- app_assoc.
Qed.

Lemma assign_in_roster (roster : list (string * Handler)) (ticket : TicketDict)
    (email : string) :
  assign_ticket_in roster ticket = Ok email →
  ∃ info, (email, info) ∈ roster.
Proof.
  unfold assign_ticket_in.
  pose proof (sorted_candidates_head roster (t_category ticket)) as Hhead.
  destruct (suitable_loop roster (t_category ticket)) as [|c cs].
  - destruct roster as [|x l]; [done |]. cbn [py_min].
    destruct (fold_min_spec (λ x : string * Handler, current_load x.2) l x)
      as [Hin _].
    set (m := fold_left _ l x) in *. intros H. injection H as <-.
    exists m.2. by destruct m.
  - destruct (py_sort _ (c :: cs)) as [|[e r] s]; [done |].
    cbn [head] in Hhead. destruct Hhead as (pre & info & post & -> & _).
    intros H. injection H as <-. exists info.
    apply elem_of_app. right. by left.
Qed.

End fallback.

(** X17. On the fallback path the balancer answers with the first handler of
    the roster among those of smallest current_load: every handler listed
    before the answer carries a strictly larger load, every handler listed
    after it a load at least as large. Skills and maxima play no part. *)
Theorem X17_fallback_first_listed_least_loaded
    (roster : list (string * Handler)) (ticket : TicketDict) :
  roster ≠ [] →
  (∀ e i, (e, i) ∈ roster → eligible (t_category ticket) i = false) →
  ∃ pre email info post,
    roster = pre ++ (email, info) :: post ∧
    assign_ticket_in roster ticket = Ok email ∧
    (∀ e' i', (e', i') ∈ pre → current_load info < current_load i') ∧
    (∀ e' i', (e', i') ∈ post → current_load info ≤ current_load i').
Proof.
  intros Hne Hnone. unfold assign_ticket_in.
  rewrite (proj2 (suitable_loop_nil roster (t_category ticket)) Hnone).
  destruct roster as [|x l]; [done |]. cbn [py_min].
  destruct (fold_min_first (λ x : string * Handler, current_load x.2) l [] x [])
    as (pre & post & Heq & Hpre & Hpost).
  - intros y Hy. by apply elem_of_nil in Hy.
  - intros y Hy. by apply elem_of_nil in Hy.
  - cbn [app] in Heq. set (m := fold_left _ l x) in *.
    exists pre, m.1, m.2, post. repeat split.
    + rewrite Heq. by destruct m.
    + intros e' i' Hin. exact (Hpre (e', i') Hin).
    + intros e' i' Hin. exact (Hpost (e', i') Hin).
Qed.

Lemma X17_fallback_first_listed_least_loaded_witness :
  ∃ pre email info post,
    [ ("zoe.young@company.com", mkHandler [NETWORK] 4 4);
      ("amy.adams@company.com", mkHandler [EMAIL] 9 4);
      ("bob.wilson@company.com", mkHandler [NETWORK] 8 8) ]
      = pre ++ (email, info) :: post ∧
    assign_ticket_in
      [ ("zoe.young@company.com", mkHandler [NETWORK] 4 4);
        ("amy.adams@company.com", mkHandler [EMAIL] 9 4);
        ("bob.wilson@company.com", mkHandler [NETWORK] 8 8) ]
      (fresh_ticket 1234 "VPN not connecting" "cannot reach the VPN gateway"
                    NETWORK LOW) = Ok email ∧
    (∀ e' i', (e', i') ∈ pre → current_load info < current_load i') ∧
    (∀ e' i', (e', i') ∈ post → current_load info ≤ current_load i').
Proof.
  apply (X17_fallback_first_listed_least_loaded
           [ ("zoe.young@company.com", mkHandler [NETWORK] 4 4);
             ("amy.adams@company.com", mkHandler [EMAIL] 9 4);
             ("bob.wilson@company.com", mkHandler [NETWORK] 8 8) ]
           (fresh_ticket 1234 "VPN not connecting"
                         "cannot reach the VPN gateway" NETWORK LOW)).
  - discriminate.
  - apply suitable_loop_nil. reflexivity.
Defined.

(** At equal smallest load the first listed handler is taken, here the one
    who is at her maximum and ahead of an idle colleague in the list. *)
Example fallback_tie_goes_to_first_listed :
  assign_ticket_in
    [ ("zoe.young@company.com", mkHandler [NETWORK] 4 4);
      ("amy.adams@company.com", mkHandler [EMAIL] 9 4);
      ("bob.wilson@company.com", mkHandler [NETWORK] 8 8) ]
    (fresh_ticket 1234 "VPN not connecting" "cannot reach the VPN gateway"
                  NETWORK LOW) = Ok "zoe.young@company.com".
Proof. reflexivity. Qed.

(** X18. The balancer fails on the empty roster only, and then with the
    ValueError of [min]; on any other roster it answers with an identifier
    that is listed in the roster. *)
Theorem X18_balancer_fails_only_on_empty_roster
    (roster : list (string * Handler)) (ticket : TicketDict) :
  (∀ e, assign_ticket_in roster ticket = Raise e ↔
        roster = [] ∧ e = ValueError) ∧
  (∀ email, assign_ticket_in roster ticket = Ok email →
            ∃ info, (email, info) ∈ roster).
Proof.
  split; [| intros email; apply assign_in_roster].
  intros e. split.
  - unfold assign_ticket_in.
    destruct (suitable_loop roster (t_category ticket)) as [|c cs] eqn:Hs.
    + destruct roster as [|x l]; [| done]. cbn. intros H. by injection H as <-.
    + destruct (py_sort _ (c :: cs)) as [|y s] eqn:Hsort; [| done].
      by apply py_sort_nil in Hsort.
  - by intros [-> ->].
Qed.

(** X19. With the roster written in the source, the assignee is a function
    of the category alone: HARDWARE and NETWORK go to john.doe, SOFTWARE and
    EMAIL to jane.smith, ACCESS to bob.wilson, and OTHER, which nobody
    covers, to jane.smith as the least loaded. Priority, title, description
    and the engine play no part. *)
Theorem X19_source_roster_assignment (self : ServiceDeskAutomation)
    (ticket : TicketDict) :
  assign_ticket self ticket =
  Ok (match t_category ticket with
      | HARDWARE | NETWORK => "john.doe@company.com"
      | SOFTWARE | EMAIL | OTHER => "jane.smith@company.com"
      | ACCESS => "bob.wilson@company.com"
      end).
Proof.
  unfold assign_ticket, assign_ticket_in.
  by destruct (t_category ticket).
Qed.
